(** * linear-mcp-server: pipeline engine, tool dispatcher and metrics log

    A shallow embedding of [src/pipeline.ts], [src/metrics.ts],
    [src/enhanced-types.ts], the hand-written type guards and the dispatch
    and error-normalisation code of the server entry point, followed by the
    properties of the specification that concern them.

    JavaScript values are a first-order data type; function values are
    references into the host's table of callables.  Code that reads the
    clock, draws a UUID, calls the Linear client or calls a caller-supplied
    function threads the host's [World] explicitly.  A JavaScript [throw] is
    the [Raise] completion of a small state-and-exception monad. *)

From Stdlib Require Import String Ascii List ZArith Bool Lia.
Import ListNotations.
Local Open Scope string_scope.
Local Open Scope Z_scope.
Local Open Scope list_scope.

Set Implicit Arguments.
Set Warnings "-register-all".

(** ** JavaScript values *)

(** Numbers.  The modelled code only asks of a number whether
    [typeof x === "number"] and, through Zod, whether it is [NaN]; a finite
    number is therefore represented by an integer. *)
Inductive JSNumber : Type :=
| NaN
| Infinity (negative : bool)
| Finite (z : Z).

(** A function value is a reference to a callable of the host. *)
Definition FnRef : Type := nat.

Inductive JSValue : Type :=
| JUndefined
| JNull
| JBool (b : bool)
| JNum (n : JSNumber)
| JStr (s : string)
| JArr (elems : list JSValue)
| JObj (props : list (string * JSValue))
| JFun (f : FnRef).

(** Own-property lookup in a property list (first binding wins). *)
Fixpoint assoc (k : string) (props : list (string * JSValue)) : option JSValue :=
  match props with
  | [] => None
  | (k', v) :: rest => if String.eqb k k' then Some v else assoc k rest
  end.

(** [v.k] for the property names used by the code (none of them is an
    array or function built-in): [undefined] when the property is absent. *)
Definition get (v : JSValue) (k : string) : JSValue :=
  match v with
  | JObj props => match assoc k props with Some x => x | None => JUndefined end
  | _ => JUndefined
  end.

(** [k in v], for [v] an object or an array. *)
Definition has_prop (k : string) (v : JSValue) : bool :=
  match v with
  | JObj props => match assoc k props with Some _ => true | None => false end
  | _ => false
  end.

Definition typeof (v : JSValue) : string :=
  match v with
  | JUndefined => "undefined"
  | JNull => "object"
  | JBool _ => "boolean"
  | JNum _ => "number"
  | JStr _ => "string"
  | JArr _ => "object"
  | JObj _ => "object"
  | JFun _ => "function"
  end.

(** [v !== null] *)
Definition not_null (v : JSValue) : bool :=
  match v with JNull => false | _ => true end.

(** [v === s] for a string literal [s]. *)
Definition strict_eq_str (v : JSValue) (s : string) : bool :=
  match v with JStr t => String.eqb t s | _ => false end.

(** ToBoolean. *)
Definition truthy (v : JSValue) : bool :=
  match v with
  | JUndefined | JNull => false
  | JBool b => b
  | JNum NaN => false
  | JNum (Finite z) => negb (z =? 0)
  | JNum (Infinity _) => true
  | JStr s => negb (String.eqb s "")
  | JArr _ | JObj _ | JFun _ => true
  end.

(** ** Zod schemas ([import { z } from 'zod'])

    The combinators used by [enhanced-types.ts], with Zod 3's parsing rules:
    [z.object] accepts plain objects only (not [null], not arrays), reads
    each key of its shape from the input ([undefined] when absent), strips
    unknown keys, and keeps a key in the output when its parsed value is
    defined or the key was present; [z.number] rejects [NaN]; [optional]
    accepts [undefined]; [default] replaces [undefined] by the default.
    For a function, [z.function()] yields a wrapper that calls it on the
    same arguments and returns its result; the wrapper is represented by
    the function itself. *)
Inductive ZodSchema : Type :=
| ZString
| ZNumber
| ZBoolean
| ZAny
| ZFunction
| ZOptional (inner : ZodSchema)
| ZDefault (inner : ZodSchema) (dflt : JSValue)
| ZArray (element : ZodSchema)
| ZObject (shape : list (string * ZodSchema)).

Fixpoint mapM_option {A B : Type} (f : A -> option B) (l : list A) : option (list B) :=
  match l with
  | [] => Some []
  | x :: rest =>
      match f x, mapM_option f rest with
      | Some y, Some ys => Some (y :: ys)
      | _, _ => None
      end
  end.

(** [schema.safeParse(v)]: [Some data] stands for [{success: true, data}],
    [None] for [{success: false, error}]. *)
Fixpoint safeParse (schema : ZodSchema) (v : JSValue) {struct schema} : option JSValue :=
  match schema with
  | ZString => match v with JStr _ => Some v | _ => None end
  | ZNumber =>
      match v with
      | JNum NaN => None
      | JNum _ => Some v
      | _ => None
      end
  | ZBoolean => match v with JBool _ => Some v | _ => None end
  | ZAny => Some v
  | ZFunction => match v with JFun _ => Some v | _ => None end
  | ZOptional inner =>
      match v with
      | JUndefined => Some JUndefined
      | _ => safeParse inner v
      end
  | ZDefault inner dflt =>
      match v with
      | JUndefined => safeParse inner dflt
      | _ => safeParse inner v
      end
  | ZArray element =>
      match v with
      | JArr elems => option_map JArr (mapM_option (safeParse element) elems)
      | _ => None
      end
  | ZObject shape =>
      match v with
      | JObj props =>
          option_map JObj
            ((fix parse_keys (sh : list (string * ZodSchema))
                : option (list (string * JSValue)) :=
                match sh with
                | [] => Some []
                | (k, sk) :: sh' =>
                    match safeParse sk (get v k), parse_keys sh' with
                    | Some d, Some out =>
                        Some (match d, assoc k props with
                              | JUndefined, None => out
                              | _, _ => (k, d) :: out
                              end)
                    | _, _ => None
                    end
                end) shape)
      | _ => None
      end
  end.

Definition safeParse_success (r : option JSValue) : bool :=
  match r with Some _ => true | None => false end.

(** ** enhanced-types.ts *)
Module EnhancedTypes.

Definition MCPContextSchema : ZodSchema :=
  ZObject [ ("requestId", ZString);
            ("timestamp", ZNumber);
            ("timeout", ZOptional ZNumber);
            ("retryCount", ZOptional ZNumber);
            ("parentContext", ZOptional ZString) ].

Definition PipelineSchema : ZodSchema :=
  ZObject [ ("steps", ZArray (ZObject [ ("toolName", ZString);
                                        ("params", ZAny);
                                        ("condition", ZOptional ZFunction);
                                        ("transform", ZOptional ZFunction) ]));
            ("context", ZOptional MCPContextSchema) ].

Definition ListIssuesInputSchema : ZodSchema :=
  ZObject [ ("teamId", ZOptional ZString);
            ("first", ZDefault (ZOptional ZNumber) (JNum (Finite 50))) ].

Definition CreateIssueInputSchema : ZodSchema :=
  ZObject [ ("title", ZString);
            ("description", ZOptional ZString);
            ("teamId", ZString);
            ("assigneeId", ZOptional ZString);
            ("priority", ZOptional ZNumber) ].

Definition isValidListIssuesArgs (args : JSValue) : bool :=
  safeParse_success (safeParse ListIssuesInputSchema args).

Definition isValidIssueCreateArgs (args : JSValue) : bool :=
  safeParse_success (safeParse CreateIssueInputSchema args).

End EnhancedTypes.

(** ** The hand-written type guards *)
Module Types.

Definition isValidListIssuesArgs (args : JSValue) : bool :=
  String.eqb (typeof args) "object" &&
  not_null args &&
  (negb (has_prop "teamId" args) || String.eqb (typeof (get args "teamId")) "string") &&
  (negb (has_prop "first" args) || String.eqb (typeof (get args "first")) "number").

Definition isValidIssueCreateArgs (args : JSValue) : bool :=
  String.eqb (typeof args) "object" &&
  not_null args &&
  has_prop "title" args &&
  String.eqb (typeof (get args "title")) "string" &&
  has_prop "teamId" args &&
  String.eqb (typeof (get args "teamId")) "string".

End Types.

(** ** Errors and completions *)

(** An [Error] instance: its [name], its [message], and the optional
    [code] and [retryable] properties of [MCPError].  [err_code = None] is
    ['code' in error === false]. *)
Record JSError : Type := {
  err_name : string;
  err_message : string;
  err_code : option JSValue;
  err_retryable : option bool
}.

(** What a [catch] clause can receive: an [Error] instance, or any other
    value, of which the code only takes [String(value)]. *)
Inductive Thrown : Type :=
| ThrowError (e : JSError)
| ThrowOther (str : string).

(** [new Error(msg)] *)
Definition new_Error (msg : string) : JSError :=
  {| err_name := "Error"; err_message := msg; err_code := None; err_retryable := None |}.

(** [error instanceof Error ? error.message : String(error)] *)
Definition message_of (error : Thrown) : string :=
  match error with
  | ThrowError e => err_message e
  | ThrowOther str => str
  end.

(** [error instanceof Error && 'code' in error ? (error as any).code : dflt] *)
Definition code_or (error : Thrown) (dflt : string) : JSValue :=
  match error with
  | ThrowError e =>
      match err_code e with
      | Some c => c
      | None => JStr dflt
      end
  | ThrowOther _ => JStr dflt
  end.

Inductive Completion (A : Type) : Type :=
| Return (a : A)
| Raise (error : Thrown).
Arguments Raise {A} error.

(** Computations over a state [S] that return or throw; a throw keeps the
    state reached so far. *)
Definition M (S A : Type) : Type := S -> Completion A * S.

Definition ret {S A : Type} (a : A) : M S A := fun s => (Return a, s).

Definition throw {S A : Type} (error : Thrown) : M S A := fun s => (Raise error, s).

Definition bind {S A B : Type} (m : M S A) (k : A -> M S B) : M S B :=
  fun s =>
    match m s with
    | (Return a, s') => k a s'
    | (Raise error, s') => (Raise error, s')
    end.

(** [try { body } catch (error) { handler }] *)
Definition try_catch {S A : Type} (body : M S A) (handler : Thrown -> M S A) : M S A :=
  fun s =>
    match body s with
    | (Return a, s') => (Return a, s')
    | (Raise error, s') => handler error s'
    end.

Declare Scope js_scope.
Delimit Scope js_scope with js.
Notation "x <- m ;; k" := (bind m (fun x => k))
  (at level 61, m at next level, right associativity) : js_scope.
Notation "m ;;; k" := (bind m (fun _ => k))
  (at level 61, right associativity) : js_scope.

(** ** The host: clock, UUID source, callables and the Linear client *)
Class Host : Type := {
  World : Type;
  (** [Date.now()] *)
  Date_now : World -> Z * World;
  (** [randomUUID()] *)
  randomUUID : World -> string * World;
  (** calling the function value [f] on one argument *)
  call_function : FnRef -> JSValue -> World -> Completion JSValue * World;
  (** [client.issues(params)] and [client.createIssue(params)] *)
  client_issues : JSValue -> World -> Completion JSValue * World;
  client_createIssue : JSValue -> World -> Completion JSValue * World
}.

(** ** metrics.ts *)

(** [MCPMetrics], and [Omit<MCPMetrics, 'timestamp'>]. *)
Record MCPMetrics : Type := {
  requestDuration : Z;
  toolName : string;
  success : bool;
  errorType : option string;
  retryCount : Z;
  timestamp : Z
}.

Record MetricInput : Type := {
  in_requestDuration : Z;
  in_toolName : string;
  in_success : bool;
  in_errorType : option string;
  in_retryCount : Z
}.

(** [array.slice(start)] *)
Definition Array_slice {A : Type} (start : Z) (l : list A) : list A :=
  let len := Z.of_nat (length l) in
  let k := if start <? 0 then Z.max (len + start) 0 else Z.min start len in
  skipn (Z.to_nat k) l.

Module MetricsCollector.

Definition maxMetricsCount : Z := 1000.

(** [{ ...metric, timestamp }] *)
Definition stamp (metric : MetricInput) (now : Z) : MCPMetrics :=
  {| requestDuration := in_requestDuration metric;
     toolName := in_toolName metric;
     success := in_success metric;
     errorType := in_errorType metric;
     retryCount := in_retryCount metric;
     timestamp := now |}.

(** The metric a caller passed to [record], read back from the log. *)
Definition unstamp (m : MCPMetrics) : MetricInput :=
  {| in_requestDuration := requestDuration m;
     in_toolName := toolName m;
     in_success := success m;
     in_errorType := errorType m;
     in_retryCount := retryCount m |}.

(** [this.metrics.push(fullMetric)] followed by the truncation. *)
Definition push (fullMetric : MCPMetrics) (metrics : list MCPMetrics) : list MCPMetrics :=
  let metrics := metrics ++ [fullMetric] in
  if Z.of_nat (length metrics) >? maxMetricsCount
  then Array_slice (- maxMetricsCount) metrics
  else metrics.

Definition record `{Host} (metric : MetricInput) (metrics : list MCPMetrics) (w : World)
  : list MCPMetrics * World :=
  let (now, w') := Date_now w in
  (push (stamp metric now) metrics, w').

Definition getMetrics (metrics : list MCPMetrics) : list MCPMetrics := metrics.

Definition getMetricsForTool (metrics : list MCPMetrics) (name : string) : list MCPMetrics :=
  filter (fun m => String.eqb (toolName m) name) metrics.

Definition reset (metrics : list MCPMetrics) : list MCPMetrics := [].

(** A series of [record] calls, oldest first. *)
Fixpoint record_all `{Host} (inputs : list MetricInput) (metrics : list MCPMetrics) (w : World)
  : list MCPMetrics * World :=
  match inputs with
  | [] => (metrics, w)
  | metric :: rest =>
      let (metrics', w') := record metric metrics w in
      record_all rest metrics' w'
  end.

End MetricsCollector.

(** ** The server: state and tool dispatcher *)

Record ServerState `{Host} : Type := {
  metrics : list MCPMetrics;
  world : World
}.

Section Dispatcher.
Context `{Host}.
Local Open Scope js_scope.

(** Host operations lifted to the server state; they touch the world only. *)
Definition on_world {A : Type} (op : World -> A * World) : ServerState -> A * ServerState :=
  fun st =>
    let (a, w') := op (world st) in
    (a, {| metrics := metrics st; world := w' |}).

Definition now_ : M ServerState Z :=
  fun st => let (t, st') := on_world Date_now st in (Return t, st').

Definition issues_ (params : JSValue) : M ServerState JSValue :=
  on_world (client_issues params).

Definition createIssue_ (params : JSValue) : M ServerState JSValue :=
  on_world (client_createIssue params).

(** [this.metrics.record(metric)] *)
Definition record_ (metric : MetricInput) : M ServerState unit :=
  fun st =>
    let (metrics', w') := MetricsCollector.record metric (metrics st) (world st) in
    (Return tt, {| metrics := metrics'; world := w' |}).

(** [error instanceof Error ? error.name : 'UnknownError'] *)
Definition error_tag (error : Thrown) : string :=
  match error with
  | ThrowError e => err_name e
  | ThrowOther _ => "UnknownError"
  end.

Definition executeTool (name : string) (params : JSValue) : M ServerState JSValue :=
  startTime <- now_ ;;
  try_catch
    (result <-
       (if String.eqb name "listIssues" then
          if negb (EnhancedTypes.isValidListIssuesArgs params)
          then throw (ThrowError (new_Error "Invalid list issues arguments"))
          else issues_ params
        else if String.eqb name "createIssue" then
          if negb (EnhancedTypes.isValidIssueCreateArgs params)
          then throw (ThrowError (new_Error "Invalid issue creation arguments"))
          else createIssue_ params
        else throw (ThrowError (new_Error ("Unknown tool: " ++ name)%string))) ;;
     endTime <- now_ ;;
     record_ {| in_toolName := name;
                in_requestDuration := endTime - startTime;
                in_success := true;
                in_errorType := None;
                in_retryCount := 0 |} ;;;
     ret result)
    (fun error =>
       endTime <- now_ ;;
       record_ {| in_toolName := name;
                  in_requestDuration := endTime - startTime;
                  in_success := false;
                  in_errorType := Some (error_tag error);
                  in_retryCount := 0 |} ;;;
       throw error).

End Dispatcher.

(** ** pipeline.ts *)

(** [PipelineStep] and [Pipeline] of enhanced-types.ts. *)
Record PipelineStep : Type := {
  step_toolName : string;
  step_params : JSValue;
  step_condition : option FnRef;
  step_transform : option FnRef
}.

Record Pipeline : Type := {
  steps : list PipelineStep;
  context : JSValue
}.

(** The typed view of [parseResult.data] ([z.infer] of [PipelineSchema]). *)
Definition as_function (v : JSValue) : option FnRef :=
  match v with JFun f => Some f | _ => None end.

Definition as_string (v : JSValue) : string :=
  match v with JStr s => s | _ => "" end.

Definition as_array (v : JSValue) : list JSValue :=
  match v with JArr elems => elems | _ => [] end.

Definition as_PipelineStep (d : JSValue) : PipelineStep :=
  {| step_toolName := as_string (get d "toolName");
     step_params := get d "params";
     step_condition := as_function (get d "condition");
     step_transform := as_function (get d "transform") |}.

Definition as_Pipeline (d : JSValue) : Pipeline :=
  {| steps := map as_PipelineStep (as_array (get d "steps"));
     context := get d "context" |}.

(** [{ ...base, ...src }] on property lists: the keys of [src] override. *)
Fixpoint set_prop (k : string) (v : JSValue) (props : list (string * JSValue))
  : list (string * JSValue) :=
  match props with
  | [] => [(k, v)]
  | (k', v') :: rest =>
      if String.eqb k k' then (k, v) :: rest else (k', v') :: set_prop k v rest
  end.

Definition spread (base : list (string * JSValue)) (src : JSValue) : JSValue :=
  match src with
  | JObj props => JObj (fold_left (fun acc kv => set_prop (fst kv) (snd kv) acc) props base)
  | _ => JObj base
  end.

(** What one run of the engine did, step by step: a step left by
    [continue], or a call of the tool executor with its completion.  The
    journal is bookkeeping of the model; no definition reads it. *)
Inductive Event : Type :=
| EvSkip
| EvDispatch (name : string) (params : JSValue) (outcome : Completion JSValue).

Record PipelineState `{Host} : Type := {
  server : ServerState;
  journal : list Event
}.

(** How the body of the [try] block is left when it does not throw. *)
Inductive StepExit : Type :=
| Continue
| Pushed (result : JSValue).

Section PipelineProcessor.
Context `{Host}.
Local Open Scope js_scope.

(** [constructor(private toolExecutor: (name, params) => Promise<any>)] *)
Variable toolExecutor : string -> JSValue -> M ServerState JSValue.

Definition log (ev : Event) : PipelineState -> PipelineState :=
  fun ps => {| server := server ps; journal := journal ps ++ [ev] |}.

(** [await this.toolExecutor(name, params)] *)
Definition dispatch (name : string) (params : JSValue) : M PipelineState JSValue :=
  fun ps =>
    let (r, st') := toolExecutor name params (server ps) in
    (r, log (EvDispatch name params r) {| server := st'; journal := journal ps |}).

(** [f(arg)] for a caller-supplied function. *)
Definition call_ (f : FnRef) (arg : JSValue) : M PipelineState JSValue :=
  fun ps =>
    let (r, st') := on_world (call_function f arg) (server ps) in
    (r, {| server := st'; journal := journal ps |}).

Definition lift_world {A : Type} (op : World -> A * World) : M PipelineState A :=
  fun ps =>
    let (a, st') := on_world op (server ps) in
    (Return a, {| server := st'; journal := journal ps |}).

(** [continue] *)
Definition continue_ : M PipelineState StepExit :=
  fun ps => (Return Continue, log EvSkip ps).

(** The error built by the [catch] clause. *)
Definition step_error (error : Thrown) : JSError :=
  {| err_name := "Error";
     err_message := message_of error;
     err_code := Some (code_or error "PIPELINE_STEP_ERROR");
     err_retryable := Some false |}.

(** The body of the [try] block for one step. *)
Definition try_block (step : PipelineStep) (prevResult : JSValue) : M PipelineState StepExit :=
  skip <- match step_condition step with
          | Some condition =>
              c <- call_ condition prevResult ;;
              ret (negb (truthy c))
          | None => ret false
          end ;;
  if (skip : bool) then continue_
  else
    params <- match step_transform step with
              | Some transform => call_ transform prevResult
              | None => ret (step_params step)
              end ;;
    result <- dispatch (step_toolName step) params ;;
    ret (Pushed result).

(** [for (const step of pipeline.steps) { try { ... } catch (error) { ... } }] *)
Fixpoint for_steps (todo : list PipelineStep) (results : list JSValue) (prevResult : JSValue)
  : M PipelineState (list JSValue) :=
  match todo with
  | [] => ret results
  | step :: rest =>
      exit <- try_catch (try_block step prevResult)
                        (fun error => throw (ThrowError (step_error error))) ;;
      match exit with
      | Continue => for_steps rest results prevResult
      | Pushed result => for_steps rest (results ++ [result]) result
      end
  end.

Definition executePipeline (pipelineInput : JSValue) : M PipelineState (list JSValue) :=
  match safeParse EnhancedTypes.PipelineSchema pipelineInput with
  | None => throw (ThrowError (new_Error "Invalid pipeline configuration"))
  | Some data =>
      let pipeline := as_Pipeline data in
      requestId <- lift_world randomUUID ;;
      now <- lift_world Date_now ;;
      let context := spread [("requestId", JStr requestId); ("timestamp", JNum (Finite now))]
                            (context pipeline) in
      for_steps (steps pipeline) [] JNull
  end.

End PipelineProcessor.

(** ** The server: call handler *)

(** The object serialised into the error response. *)
Record ErrorPayload : Type := {
  code : JSValue;
  message : string;
  details : Thrown;
  retryable : bool;
  suggestions : list string
}.

Inductive ToolResponse : Type :=
| Content (result : JSValue)
| IsError (payload : ErrorPayload).

Definition getSuggestionsForError (error : JSError) : list string :=
  let code := match err_code error with Some c => c | None => JUndefined end in
  if strict_eq_str code "RATE_LIMIT" then
    ["Wait and retry later"; "Reduce request frequency"]
  else if strict_eq_str code "AUTHENTICATION_ERROR" then
    ["Check API key"; "Verify Linear authentication"]
  else if strict_eq_str code "NETWORK_ERROR" then
    ["Check network connection"; "Verify Linear API status"]
  else
    ["Check input parameters"; "Consult Linear API documentation"].

Section Server.
Context `{Host}.

(** [this.pipelineProcessor = new PipelineProcessor(this.executeTool.bind(this))],
    run on a fresh journal. *)
Definition runPipeline (pipelineInput : JSValue) (st : ServerState)
  : Completion (list JSValue) * PipelineState :=
  executePipeline executeTool pipelineInput {| server := st; journal := [] |}.

(** The [catch] clause of the call handler. *)
Definition normalize (error : Thrown) : ErrorPayload :=
  let code := code_or error "TOOL_ERROR" in
  let retryable := strict_eq_str code "RATE_LIMIT" || strict_eq_str code "NETWORK_ERROR" in
  let mcpError := {| err_name := "Error";
                     err_message := message_of error;
                     err_code := Some code;
                     err_retryable := Some retryable |} in
  {| code := code;
     message := err_message mcpError;
     details := error;
     retryable := retryable;
     suggestions := getSuggestionsForError mcpError |}.

(** The handler of [CallToolRequestSchema]. *)
Definition callTool (name : string) (arguments : JSValue) (st : ServerState)
  : ToolResponse * ServerState :=
  let (r, st') :=
    if String.eqb name "executePipeline" then
      let (r, ps) := runPipeline arguments st in
      (match r with
       | Return results => Return (JArr results)
       | Raise error => Raise error
       end, server ps)
    else executeTool name arguments st in
  match r with
  | Return result => (Content result, st')
  | Raise error => (IsError (normalize error), st')
  end.

End Server.

(** ** Stub hosts for concrete runs *)

Definition TypeError (msg : string) : Thrown :=
  ThrowError {| err_name := "TypeError"; err_message := msg;
                err_code := None; err_retryable := None |}.

(** The callables of the stubs:
    0 is [r => r.nodes.length > 0] (for [nodes] an array, a string, or
    missing),
    1 is [r => ({ title: "follow-up", teamId: "T1" })],
    2 is [r => { throw new Error("boom") }]. *)
Definition stub_callables (f : FnRef) (arg : JSValue) : Completion JSValue :=
  match f with
  | O =>
      match arg with
      | JNull | JUndefined =>
          Raise (TypeError "Cannot read properties of null (reading 'nodes')")
      | _ =>
          match get arg "nodes" with
          | JArr elems => Return (JBool (negb (Nat.eqb (length elems) 0)))
          | JStr s => Return (JBool (negb (Nat.eqb (String.length s) 0)))
          | JNull | JUndefined =>
              Raise (TypeError "Cannot read properties of undefined (reading 'length')")
          | _ => Return (JBool false)
          end
      end
  | S O => Return (JObj [("title", JStr "follow-up"); ("teamId", JStr "T1")])
  | S (S O) => Raise (ThrowError (new_Error "boom"))
  | _ => Return JUndefined
  end.

(** A host whose clock advances by one at each reading and by five during
    a client call, and whose client answers as [issues] and [createIssue]
    say. *)
Definition stubHost (issues createIssue : JSValue -> Completion JSValue) : Host :=
  {| World := Z;
     Date_now := fun w => (w, w + 1);
     randomUUID := fun w => ("7d9f1c2e-5b1a-4c3d-9e8f-0a1b2c3d4e5f", w);
     call_function := fun f arg w => (stub_callables f arg, w);
     client_issues := fun params w => (issues params, w + 5);
     client_createIssue := fun params w => (createIssue params, w + 5) |}.

(** The client finds no issue and creates issue [I1]. *)
Definition quietHost : Host :=
  stubHost (fun _ => Return (JObj [("nodes", JArr [])]))
           (fun _ => Return (JObj [("id", JStr "I1")])).

(** The client is rate limited. *)
Definition rate_limit_error : Thrown :=
  ThrowError {| err_name := "RatelimitedLinearError";
                err_message := "Rate limit exceeded";
                err_code := Some (JStr "RATE_LIMIT");
                err_retryable := None |}.

Definition limitedHost : Host :=
  stubHost (fun _ => Raise rate_limit_error) (fun _ => Raise rate_limit_error).

Definition fresh_server (H : Host) (w : @World H) : @ServerState H :=
  {| metrics := []; world := w |}.

(** ** Notions used by the statements *)

(** The last [n] elements of a list. *)
Definition keep_last {A : Type} (n : nat) (l : list A) : list A :=
  skipn (length l - n) l.

(** The [i]-th test metric. *)
Definition sample_metric (i : nat) : MetricInput :=
  {| in_requestDuration := Z.of_nat i;
     in_toolName := "listIssues";
     in_success := true;
     in_errorType := None;
     in_retryCount := 0 |}.

(** The ['code' in error] property of a thrown value, when it is an
    [Error] that carries one. *)
Definition thrown_code (error : Thrown) : option JSValue :=
  match error with
  | ThrowError e => err_code e
  | ThrowOther _ => None
  end.

Definition is_return {A : Type} (c : Completion A) : bool :=
  match c with Return _ => true | Raise _ => false end.

(** The [switch] of [executeTool]: what the call yields before the metric
    is recorded. *)
Definition tool_call `{Host} (name : string) (params : JSValue) (w : World)
  : Completion JSValue * World :=
  if String.eqb name "listIssues" then
    if EnhancedTypes.isValidListIssuesArgs params
    then client_issues params w
    else (Raise (ThrowError (new_Error "Invalid list issues arguments")), w)
  else if String.eqb name "createIssue" then
    if EnhancedTypes.isValidIssueCreateArgs params
    then client_createIssue params w
    else (Raise (ThrowError (new_Error "Invalid issue creation arguments")), w)
  else (Raise (ThrowError (new_Error ("Unknown tool: " ++ name)%string)), w).

(** [v] is a string; [v] is [undefined] or a string; [v] is [undefined]
    or a number other than [NaN]. *)
Definition is_string (v : JSValue) : bool :=
  match v with JStr _ => true | _ => false end.





(** Concrete servers and inputs. *)
Definition quiet_state (log : list MCPMetrics) (w : Z) : @ServerState quietHost :=
  @Build_ServerState quietHost log w.

Definition quiet_server : @ServerState quietHost := fresh_server quietHost 0.

Definition limited_server : @ServerState limitedHost := fresh_server limitedHost 0.

Definition missing_title : JSValue := JObj [("teamId", JStr "T1")].


Definition sample_metrics : list MetricInput := map sample_metric (seq 0 1001).

(** *** Notions about pipeline runs *)

(** The state [ps] after a host operation that left the world [w]: same
    metrics, same journal. *)
Definition with_world `{Host} (ps : PipelineState) (w : World) : PipelineState :=
  {| server := {| metrics := metrics (server ps); world := w |};
     journal := journal ps |}.

(** The state in which the loop of [executePipeline] starts: the request id
    and the time stamp of the context have been drawn. *)
Definition started `{Host} (ps : PipelineState) : PipelineState :=
  with_world ps (snd (Date_now (snd (randomUUID (world (server ps)))))).

(** The step has no condition, or its condition holds of [prev]; the world
    goes from [w] to [w1]. *)
Definition ConditionPasses `{Host} (step : PipelineStep) (prev : JSValue) (w w1 : World) : Prop :=
  match step_condition step with
  | None => w1 = w
  | Some condition =>
      exists c, call_function condition prev w = (Return c, w1) /\ truthy c = true
  end.

(** The step is not skipped and its effective parameters are [params]. *)
Definition Prepared `{Host} (step : PipelineStep) (prev : JSValue) (w : World)
           (params : JSValue) (w2 : World) : Prop :=
  exists w1,
    ConditionPasses step prev w w1 /\
    match step_transform step with
    | None => params = step_params step /\ w2 = w1
    | Some transform => call_function transform prev w1 = (Return params, w2)
    end.

(** The condition of the step, or its transform, throws [e]. *)
Inductive CallbackRaises `{Host} (step : PipelineStep) (prev : JSValue) (w : World)
  : Thrown -> World -> Prop :=
| condition_raises (condition : FnRef) (e : Thrown) (w' : World) :
    step_condition step = Some condition ->
    call_function condition prev w = (Raise e, w') ->
    CallbackRaises step prev w e w'
| transform_raises (transform : FnRef) (w1 : World) (e : Thrown) (w' : World) :
    ConditionPasses step prev w w1 ->
    step_transform step = Some transform ->
    call_function transform prev w1 = (Raise e, w') ->
    CallbackRaises step prev w e w'.






(** Pipelines of the test scenarios.  [followup_pipeline] lists the issues
    of team T1 and creates a follow-up issue when the list is not empty. *)
Definition list_step : JSValue :=
  JObj [("toolName", JStr "listIssues"); ("params", JObj [("teamId", JStr "T1")])].

Definition followup_step : JSValue :=
  JObj [("toolName", JStr "createIssue"); ("params", JObj []);
        ("condition", JFun 0%nat); ("transform", JFun 1%nat)].

Definition list_pipeline : JSValue := JObj [("steps", JArr [list_step])].

Definition followup_pipeline : JSValue := JObj [("steps", JArr [list_step; followup_step])].

(** A pipeline whose first step inspects the previous result, which is
    [null] at that point. *)
Definition eager_pipeline : JSValue := JObj [("steps", JArr [followup_step; list_step])].

(** [parseResult.data] of a valid pipeline. *)
Definition parsed (pipelineInput : JSValue) : JSValue :=
  match safeParse EnhancedTypes.PipelineSchema pipelineInput with
  | Some data => data
  | None => JUndefined
  end.

Definition quiet_run : @PipelineState quietHost := {| server := quiet_server; journal := [] |}.


Definition no_issues : JSValue := JObj [("nodes", JArr [])].

(** The walk of [z.object] over the keys of its shape, on its own. *)
Fixpoint parse_keys (v : JSValue) (props : list (string * JSValue))
         (shape : list (string * ZodSchema)) : option (list (string * JSValue)) :=
  match shape with
  | [] => Some []
  | (k, sk) :: shape' =>
      match safeParse sk (get v k), parse_keys v props shape' with
      | Some d, Some out =>
          Some (match d, assoc k props with
                | JUndefined, None => out
                | _, _ => (k, d) :: out
                end)
      | _, _ => None
      end
  end.

(** ** More of the code: queries, reporting, contexts and the error schema *)

From Stdlib Require Import QArith.
Local Open Scope Z_scope.
Local Open Scope list_scope.

(** *** metrics.ts: the queries *)

(** The quotient [n / d] of two integers, [d] positive.  JavaScript returns
    the double nearest to this rational. *)
Definition divide (n : Z) (d : nat) : Q := n # Pos.of_nat d.

(** [toolName ? this.getMetricsForTool(toolName) : this.metrics]: the
    argument may be missing, and the empty string is falsy. *)
Definition relevantMetrics (metrics : list MCPMetrics) (tool : option string)
  : list MCPMetrics :=
  match tool with
  | Some name =>
      if String.eqb name "" then metrics
      else MetricsCollector.getMetricsForTool metrics name
  | None => metrics
  end.

Definition getErrorRate (metrics : list MCPMetrics) (tool : option string) : Q :=
  let relevant := relevantMetrics metrics tool in
  if Nat.eqb (length relevant) 0 then 0%Q
  else
    let errorCount := length (filter (fun m => negb (success m)) relevant) in
    divide (Z.of_nat errorCount) (length relevant).

Definition getAverageRequestDuration (metrics : list MCPMetrics) (tool : option string) : Q :=
  let relevant := relevantMetrics metrics tool in
  if Nat.eqb (length relevant) 0 then 0%Q
  else
    let totalDuration := fold_left (fun sum m => sum + requestDuration m) relevant 0 in
    divide totalDuration (length relevant).

(** *** The server: periodic report, error hook and series of calls *)

(** What one tick of [setupMetricsReporting] writes to the console: the
    overall error rate and average duration, then those of each listed
    tool. *)
Record ToolReport : Type := {
  report_tool : string;
  report_errorRate : Q;
  report_avgDuration : Q
}.

Record MetricsReport : Type := {
  report_overall_errorRate : Q;
  report_overall_avgDuration : Q;
  report_tools : list ToolReport
}.

Definition metricsReport (metrics : list MCPMetrics) : MetricsReport :=
  let errorRate := getErrorRate metrics None in
  let avgDuration := getAverageRequestDuration metrics None in
  {| report_overall_errorRate := errorRate;
     report_overall_avgDuration := avgDuration;
     report_tools :=
       map (fun tool =>
              {| report_tool := tool;
                 report_errorRate := getErrorRate metrics (Some tool);
                 report_avgDuration := getAverageRequestDuration metrics (Some tool) |})
           ["listIssues"; "createIssue"; "executePipeline"] |}.

(** Calls handled one after the other by the call handler. *)
Fixpoint serve `{Host} (requests : list (string * JSValue)) (st : ServerState)
  : list ToolResponse * ServerState :=
  match requests with
  | [] => ([], st)
  | (name, arguments) :: rest =>
      let (response, st') := callTool name arguments st in
      let (responses, st'') := serve rest st' in
      (response :: responses, st'')
  end.

(** The object the call handler serialises for an error; [details] stands
    for the thrown value as an object. *)
Definition payload_object (payload : ErrorPayload) (details : JSValue) : JSValue :=
  JObj [ ("code", code payload);
         ("message", JStr (message payload));
         ("details", details);
         ("retryable", JBool (retryable payload));
         ("suggestions", JArr (map JStr (suggestions payload))) ].

(** [MCPErrorSchema] of enhanced-types.ts. *)
Definition MCPErrorSchema : ZodSchema :=
  ZObject [ ("code", ZString);
            ("message", ZString);
            ("details", ZOptional ZAny);
            ("retryable", ZBoolean);
            ("suggestions", ZOptional (ZArray ZString)) ].

(** *** pipeline.ts: the execution context *)

(** [{ requestId: randomUUID(), timestamp: Date.now(), ...pipeline.context }] *)
Definition effective_context (requestId : string) (now : Z) (supplied : JSValue) : JSValue :=
  spread [("requestId", JStr requestId); ("timestamp", JNum (Finite now))] supplied.

(** *** Notions used by the further statements *)

(** The tool names [executeTool] knows. *)
Definition registered (name : string) : bool :=
  String.eqb name "listIssues" || String.eqb name "createIssue".

(** What every metric written by the dispatcher looks like. *)
Definition dispatcher_metric (m : MCPMetrics) : Prop :=
  retryCount m = 0 /\
  (success m = true <-> errorType m = None) /\
  (success m = true -> registered (toolName m) = true).

(** The calls of the tool executor in a journal: tool name and whether the
    call returned. *)
Fixpoint dispatches (evs : list Event) : list (string * bool) :=
  match evs with
  | [] => []
  | EvDispatch name _ outcome :: rest => (name, is_return outcome) :: dispatches rest
  | EvSkip :: rest => dispatches rest
  end.

(** Tool name and success flag of a metric. *)
Definition summary (m : MCPMetrics) : string * bool := (toolName m, success m).

(** A series of pushes of stamped metrics, oldest first. *)
Definition push_all (news log : list MCPMetrics) : list MCPMetrics :=
  fold_left (fun log m => MetricsCollector.push m log) news log.

(** A small log: two calls of listIssues around a failed createIssue. *)
Definition sample_log : list MCPMetrics :=
  [ {| requestDuration := 6; toolName := "listIssues"; success := true;
       errorType := None; retryCount := 0; timestamp := 7 |};
    {| requestDuration := 1; toolName := "createIssue"; success := false;
       errorType := Some "Error"; retryCount := 0; timestamp := 10 |};
    {| requestDuration := 10; toolName := "listIssues"; success := true;
       errorType := None; retryCount := 0; timestamp := 22 |} ].

(** Further pipelines of the concrete runs: a pipeline that names
    executePipeline as a step, and the list pipeline with a context. *)
Definition nested_step : JSValue :=
  JObj [("toolName", JStr "executePipeline"); ("params", list_pipeline)].

Definition nested_pipeline : JSValue := JObj [("steps", JArr [nested_step])].

Definition traced_pipeline : JSValue :=
  JObj [("steps", JArr [list_step]);
        ("context", JObj [("requestId", JStr "r1"); ("timestamp", JNum (Finite 5));
                          ("timeout", JNum (Finite 100))])].

Definition issue_args : list (string * JSValue) :=
  [("title", JStr "a"); ("teamId", JStr "b")].

(** * Properties *)

(** ** The metrics log *)
Section MetricsLog.
Context `{Host}.

Lemma Array_slice_negative {A : Type} (n : nat) (l : list A) :
  Array_slice (- Z.of_nat (S n)) l = keep_last (S n) l.
Proof.
  unfold Array_slice, keep_last.
  replace (- Z.of_nat (S n) <? 0) with true by (symmetry; apply Z.ltb_lt; lia).
  f_equal. lia.
Qed.

Lemma keep_last_short {A : Type} (n : nat) (l : list A) :
  (length l <= n)%nat -> keep_last n l = l.
Proof.
  intros Hlen. unfold keep_last.
  replace (length l - n)%nat with 0%nat by lia. reflexivity.
Qed.

Lemma length_keep_last {A : Type} (n : nat) (l : list A) :
  length (keep_last n l) = Nat.min n (length l).
Proof. unfold keep_last. rewrite length_skipn. lia. Qed.

(** Truncating before and after an append is truncating after it. *)
Lemma keep_last_snoc {A : Type} (n : nat) (l : list A) (x : A) :
  keep_last n (keep_last n l ++ [x]) = keep_last n (l ++ [x]).
Proof.
  unfold keep_last.
  rewrite !length_app, length_skipn. cbn [length].
  rewrite !skipn_app, skipn_skipn, length_skipn.
  destruct (Nat.le_gt_cases (length l) n) as [Hle | Hgt].
  - replace (length l - n)%nat with 0%nat by lia.
    rewrite Nat.sub_0_r, Nat.add_0_r. cbn [skipn]. reflexivity.
  - f_equal.
    + f_equal. lia.
    + f_equal. lia.
Qed.

Lemma push_keep_last (m : MCPMetrics) (log : list MCPMetrics) :
  MetricsCollector.push m log
  = keep_last (Z.to_nat MetricsCollector.maxMetricsCount) (log ++ [m]).
Proof.
  unfold MetricsCollector.push.
  change (- MetricsCollector.maxMetricsCount) with (- Z.of_nat 1000).
  change (Z.to_nat MetricsCollector.maxMetricsCount) with 1000%nat.
  destruct (Z.of_nat (length (log ++ [m])) >? MetricsCollector.maxMetricsCount) eqn:Hgt.
  - apply (Array_slice_negative 999).
  - symmetry. apply keep_last_short.
    rewrite Z.gtb_ltb, Z.ltb_ge in Hgt.
    unfold MetricsCollector.maxMetricsCount in Hgt. lia.
Qed.

(** A series of records leaves the last 1000 of everything recorded, each
    entry being the caller's metric with a time stamp. *)
Lemma record_all_keep_last (inputs : list MetricInput) :
  forall (earlier : list MCPMetrics) (w : World),
  exists stamped : list MCPMetrics,
    map MetricsCollector.unstamp stamped = inputs /\
    fst (MetricsCollector.record_all inputs (keep_last 1000 earlier) w)
    = keep_last 1000 (earlier ++ stamped).
Proof.
  induction inputs as [| metric rest IH]; intros earlier w.
  - exists []. split; [reflexivity |]. cbn. now rewrite app_nil_r.
  - cbn [MetricsCollector.record_all]. unfold MetricsCollector.record.
    destruct (Date_now w) as [now w'].
    rewrite push_keep_last.
    change (Z.to_nat MetricsCollector.maxMetricsCount) with 1000%nat.
    rewrite keep_last_snoc.
    destruct (IH (earlier ++ [MetricsCollector.stamp metric now]) w') as [stamped [Hin Hlog]].
    exists (MetricsCollector.stamp metric now :: stamped). split.
    + cbn [map]. rewrite Hin. destruct metric; reflexivity.
    + rewrite Hlog, <- app_assoc. reflexivity.
Qed.

(** C7.  Whatever is recorded into a fresh collector, the log holds at most
    1000 entries; read back, it is the recorded metrics in insertion order
    and unmodified when at most 1000 were recorded, and otherwise the most
    recent 1000 of them, the oldest having been dropped. *)
Theorem metrics_log_is_sliding_window (inputs : list MetricInput) (w : World) :
  let log := MetricsCollector.getMetrics (fst (MetricsCollector.record_all inputs [] w)) in
  (length log <= 1000)%nat /\
  ((length inputs <= 1000)%nat -> map MetricsCollector.unstamp log = inputs) /\
  ((1000 < length inputs)%nat ->
     map MetricsCollector.unstamp log = skipn (length inputs - 1000) inputs).
Proof.
  intros log.
  destruct (record_all_keep_last inputs [] w) as [stamped [Hin Hlog]].
  change (keep_last 1000 (@nil MCPMetrics)) with (@nil MCPMetrics) in Hlog.
  assert (Hread : map MetricsCollector.unstamp log = keep_last 1000 inputs).
  { unfold log, MetricsCollector.getMetrics. rewrite Hlog. cbn [app].
    unfold keep_last. rewrite <- skipn_map, Hin.
    rewrite <- Hin at 2. now rewrite length_map. }
  split; [| split].
  - unfold log, MetricsCollector.getMetrics. rewrite Hlog, length_keep_last. lia.
  - intros Hle. rewrite Hread. now apply keep_last_short.
  - intros _. exact Hread.
Qed.

End MetricsLog.

(** The window at work on 1001 records: the first one is gone. *)
Lemma metrics_log_is_sliding_window_witness :
  (length (MetricsCollector.getMetrics
             (fst (@MetricsCollector.record_all quietHost sample_metrics [] 0%Z))) <= 1000)%nat /\
  map MetricsCollector.unstamp
      (MetricsCollector.getMetrics
         (fst (@MetricsCollector.record_all quietHost sample_metrics [] 0)))
  = map sample_metric (seq 1 1000).
Proof.
  destruct (@metrics_log_is_sliding_window quietHost sample_metrics 0) as [Hlen [_ Hlong]].
  split.
  - exact Hlen.
  - rewrite Hlong.
    + vm_compute. reflexivity.
    + vm_compute. lia.
Defined.

(** ** The tool dispatcher *)

(** Projections of literal records, and readings of the clock. *)
Ltac js_simpl :=
  cbn [metrics world fst snd negb is_return
       in_requestDuration in_toolName in_success in_errorType in_retryCount].

Ltac destruct_clock :=
  match goal with
  | |- context [Date_now ?w] =>
      let t := fresh "t" in
      let w' := fresh "w" in
      destruct (Date_now w) as [t w']
  end.

Ltac destruct_client :=
  match goal with
  | |- context [client_issues ?p ?w] =>
      let r := fresh "r" in
      let w' := fresh "w" in
      destruct (client_issues p w) as [[r | r] w']
  | |- context [client_createIssue ?p ?w] =>
      let r := fresh "r" in
      let w' := fresh "w" in
      destruct (client_createIssue p w) as [[r | r] w']
  end.

Section DispatcherFacts.
Context `{Host}.

(** [executeTool] reads the clock, makes the call, reads the clock again
    and records one metric whose time stamp is a third reading. *)
Lemma executeTool_unfold (name : string) (params : JSValue) (st : ServerState) :
  let (startTime, w0) := Date_now (world st) in
  let (r, w1) := tool_call name params w0 in
  let (endTime, w2) := Date_now w1 in
  let (now, w3) := Date_now w2 in
  executeTool name params st
  = (r, {| metrics :=
             MetricsCollector.push
               {| requestDuration := endTime - startTime;
                  toolName := name;
                  success := is_return r;
                  errorType := match r with
                               | Return _ => None
                               | Raise error => Some (error_tag error)
                               end;
                  retryCount := 0;
                  timestamp := now |}
               (metrics st);
           world := w3 |}).
Proof.
  unfold executeTool, tool_call, bind, try_catch, now_, record_,
    issues_, createIssue_, throw, ret, MetricsCollector.record,
    MetricsCollector.stamp.
  unfold on_world.
  destruct (Date_now (world st)) as [startTime w0].
  destruct (String.eqb name "listIssues");
    [destruct (EnhancedTypes.isValidListIssuesArgs params)
    | destruct (String.eqb name "createIssue");
      [destruct (EnhancedTypes.isValidIssueCreateArgs params) |]];
    js_simpl;
    try destruct_client;
    js_simpl;
    repeat (destruct_clock; js_simpl);
    reflexivity.
Qed.


End DispatcherFacts.

(** ** The two families of argument validators *)
Section Validators.

Lemma safeParse_object_success (shape : list (string * ZodSchema))
      (props : list (string * JSValue)) :
  safeParse_success (safeParse (ZObject shape) (JObj props))
  = forallb (fun ks => safeParse_success (safeParse (snd ks) (get (JObj props) (fst ks))))
            shape.
Proof.
  cbn [safeParse].
  induction shape as [| [k sk] shape IH]; [reflexivity |].
  cbn [forallb fst snd]. rewrite <- IH.
  destruct (safeParse sk (get (JObj props) k)) as [d |]; [| reflexivity].
  match goal with
  | |- context [option_map JObj ?r] => destruct r; reflexivity
  end.
Qed.

Lemma success_string (v : JSValue) : safeParse_success (safeParse ZString v) = is_string v.
Proof. destruct v; reflexivity. Qed.








End Validators.

(** ** Failures of the dispatcher and their serialisation *)
Section DispatcherErrors.
Context `{Host}.

Lemma executeTool_outcome (name : string) (params : JSValue) (st : ServerState) :
  fst (executeTool name params st)
  = fst (tool_call name params (snd (Date_now (world st)))).
Proof.
  pose proof (executeTool_unfold name params st) as Hrun.
  destruct (Date_now (world st)) as [startTime w0]. cbn [snd].
  destruct (tool_call name params w0) as [r w1].
  destruct (Date_now w1) as [endTime w2].
  destruct (Date_now w2) as [now w3].
  cbv beta iota in Hrun. now rewrite Hrun.
Qed.

Lemma strict_eq_str_true (v : JSValue) (s : string) :
  strict_eq_str v s = true <-> v = JStr s.
Proof.
  destruct v; cbn [strict_eq_str]; try (split; discriminate).
  rewrite String.eqb_eq. split; [now intros -> | now intros [= ->]].
Qed.

Lemma strict_eq_str_false (v : JSValue) (s : string) :
  v <> JStr s -> strict_eq_str v s = false.
Proof.
  intros Hne. destruct (strict_eq_str v s) eqn:E; [| reflexivity].
  apply strict_eq_str_true in E. contradiction.
Qed.

(** An error made by [new Error(msg)] is serialised with the default code. *)
Lemma normalize_new_Error (msg : string) :
  code (normalize (ThrowError (new_Error msg))) = JStr "TOOL_ERROR" /\
  message (normalize (ThrowError (new_Error msg))) = msg /\
  retryable (normalize (ThrowError (new_Error msg))) = false.
Proof. repeat split. Qed.

(** C3, as the code has it.  An unregistered tool name and arguments that
    fail the tool's validator make [executeTool] throw a plain [Error]
    (messages below) that carries no code, so that the call boundary
    serialises it with the default code TOOL_ERROR; a failure of the Linear
    client is rethrown unchanged, and the boundary serialises the code it
    carries when it is an [Error] with a [code] property, TOOL_ERROR
    otherwise. *)
Theorem executeTool_failure_codes (name : string) (params : JSValue) (st : ServerState) :
  let w0 := snd (Date_now (world st)) in
  (name <> "listIssues" -> name <> "createIssue" ->
   fst (executeTool name params st)
   = Raise (ThrowError (new_Error ("Unknown tool: " ++ name)%string)))
  /\
  (name = "listIssues" -> EnhancedTypes.isValidListIssuesArgs params = false ->
   fst (executeTool name params st)
   = Raise (ThrowError (new_Error "Invalid list issues arguments")))
  /\
  (name = "createIssue" -> EnhancedTypes.isValidIssueCreateArgs params = false ->
   fst (executeTool name params st)
   = Raise (ThrowError (new_Error "Invalid issue creation arguments")))
  /\
  (forall msg : string, code (normalize (ThrowError (new_Error msg))) = JStr "TOOL_ERROR")
  /\
  (forall error : Thrown,
     (name = "listIssues" /\ EnhancedTypes.isValidListIssuesArgs params = true /\
      fst (client_issues params w0) = Raise error)
     \/
     (name = "createIssue" /\ EnhancedTypes.isValidIssueCreateArgs params = true /\
      fst (client_createIssue params w0) = Raise error) ->
     fst (executeTool name params st) = Raise error /\
     fst (callTool name params st) = IsError (normalize error) /\
     code (normalize error)
     = match thrown_code error with Some c => c | None => JStr "TOOL_ERROR" end).
Proof.
  intros w0.
  split; [| split; [| split; [| split]]].
  - intros Hl Hc. rewrite executeTool_outcome. unfold tool_call.
    apply String.eqb_neq in Hl. apply String.eqb_neq in Hc. now rewrite Hl, Hc.
  - intros -> Hv. rewrite executeTool_outcome. unfold tool_call. now rewrite Hv.
  - intros -> Hv. rewrite executeTool_outcome. unfold tool_call. now rewrite Hv.
  - reflexivity.
  - intros error Hclient.
    assert (Hrun : fst (executeTool name params st) = Raise error).
    { rewrite executeTool_outcome. fold w0. unfold tool_call.
      destruct Hclient as [[-> [Hv Hcall]] | [-> [Hv Hcall]]];
        cbn [String.eqb Ascii.eqb Bool.eqb]; now rewrite Hv. }
    assert (Hname : String.eqb name "executePipeline" = false).
    { destruct Hclient as [[-> _] | [-> _]]; reflexivity. }
    split; [| split].
    + exact Hrun.
    + unfold callTool. rewrite Hname.
      destruct (executeTool name params st) as [r st']. cbn [fst] in Hrun.
      now rewrite Hrun.
    + destruct error as [e | str]; [destruct e as [n m [c |] r] |]; reflexivity.
Qed.

End DispatcherErrors.

(** Where C3 fails: an unknown tool and a [createIssue] without title are
    reported with a plain [Error] that has no code, and reach the caller
    under the code TOOL_ERROR. *)
Lemma validation_failures_carry_no_kind :
  (fst (@executeTool quietHost "deleteIssue" JNull quiet_server)
   = Raise (ThrowError (new_Error "Unknown tool: deleteIssue")) /\
   thrown_code (ThrowError (new_Error "Unknown tool: deleteIssue"))
   <> Some (JStr "UNKNOWN_TOOL") /\
   fst (@callTool quietHost "deleteIssue" JNull quiet_server)
   = IsError (normalize (ThrowError (new_Error "Unknown tool: deleteIssue"))) /\
   code (normalize (ThrowError (new_Error "Unknown tool: deleteIssue")))
   <> JStr "UNKNOWN_TOOL")
  /\
  (fst (@executeTool quietHost "createIssue" missing_title quiet_server)
   = Raise (ThrowError (new_Error "Invalid issue creation arguments")) /\
   thrown_code (ThrowError (new_Error "Invalid issue creation arguments"))
   <> Some (JStr "INVALID_ARGUMENTS") /\
   fst (@callTool quietHost "createIssue" missing_title quiet_server)
   = IsError (normalize (ThrowError (new_Error "Invalid issue creation arguments"))) /\
   code (normalize (ThrowError (new_Error "Invalid issue creation arguments")))
   <> JStr "INVALID_ARGUMENTS").
Proof. repeat split; discriminate. Qed.

Lemma executeTool_failure_codes_witness :
  fst (@executeTool quietHost "deleteIssue" JNull quiet_server)
  = Raise (ThrowError (new_Error "Unknown tool: deleteIssue")) /\
  (fst (@executeTool limitedHost "listIssues" (JObj []) limited_server)
   = Raise rate_limit_error /\
   fst (@callTool limitedHost "listIssues" (JObj []) limited_server)
   = IsError (normalize rate_limit_error) /\
   code (normalize rate_limit_error) = JStr "RATE_LIMIT").
Proof.
  split.
  - apply (proj1 (@executeTool_failure_codes quietHost "deleteIssue" JNull quiet_server));
      discriminate.
  - apply (proj2 (proj2 (proj2 (proj2
             (@executeTool_failure_codes limitedHost "listIssues" (JObj [])
                limited_server))))).
    left. repeat split.
Defined.

(** ** Suggestions *)
Section Suggestions.
Context `{Host}.

(** Every error response of the call handler is the normalisation of the
    value that was thrown. *)
Lemma callTool_error (name : string) (arguments : JSValue) (st st' : ServerState)
      (payload : ErrorPayload) :
  callTool name arguments st = (IsError payload, st') ->
  exists error : Thrown, payload = normalize error.
Proof.
  unfold callTool.
  destruct (String.eqb name "executePipeline").
  - destruct (runPipeline arguments st) as [[results | error] ps].
    + discriminate.
    + intros [= <- _]. now exists error.
  - destruct (executeTool name arguments st) as [[result | error] st1].
    + discriminate.
    + intros [= <- _]. now exists error.
Qed.

(** C8, with the table of the code.  The suggestions of an error response
    are determined by its code: fixed lists for RATE_LIMIT,
    AUTHENTICATION_ERROR and NETWORK_ERROR, the generic list for every
    other code. *)
Theorem suggestions_determined_by_code (name : string) (arguments : JSValue)
        (st st' : ServerState) (payload : ErrorPayload) :
  callTool name arguments st = (IsError payload, st') ->
  (code payload = JStr "RATE_LIMIT" ->
   suggestions payload = ["Wait and retry later"; "Reduce request frequency"]) /\
  (code payload = JStr "AUTHENTICATION_ERROR" ->
   suggestions payload = ["Check API key"; "Verify Linear authentication"]) /\
  (code payload = JStr "NETWORK_ERROR" ->
   suggestions payload = ["Check network connection"; "Verify Linear API status"]) /\
  (code payload <> JStr "RATE_LIMIT" ->
   code payload <> JStr "AUTHENTICATION_ERROR" ->
   code payload <> JStr "NETWORK_ERROR" ->
   suggestions payload = ["Check input parameters"; "Consult Linear API documentation"]).
Proof.
  intros Hcall. destruct (callTool_error _ _ _ Hcall) as [error ->].
  unfold normalize. cbn [code suggestions]. unfold getSuggestionsForError. cbn [err_code].
  repeat split.
  - now intros ->.
  - now intros ->.
  - now intros ->.
  - intros Hr Ha Hn.
    now rewrite (strict_eq_str_false Hr), (strict_eq_str_false Ha), (strict_eq_str_false Hn).
Qed.

End Suggestions.

(** The lists of the code begin with capital letters: the lower-case list
    is not what RATE_LIMIT yields. *)
Lemma rate_limit_suggestions_are_capitalised :
  fst (@callTool limitedHost "listIssues" (JObj []) limited_server)
  = IsError (normalize rate_limit_error) /\
  code (normalize rate_limit_error) = JStr "RATE_LIMIT" /\
  suggestions (normalize rate_limit_error)
  <> ["wait and retry later"; "reduce request frequency"].
Proof. repeat split. discriminate. Qed.

Lemma suggestions_determined_by_code_witness :
  suggestions (normalize rate_limit_error)
  = ["Wait and retry later"; "Reduce request frequency"].
Proof.
  apply (proj1 (@suggestions_determined_by_code limitedHost "listIssues" (JObj [])
                  limited_server
                  (snd (@callTool limitedHost "listIssues" (JObj []) limited_server))
                  (normalize rate_limit_error) eq_refl)).
  reflexivity.
Defined.

(** ** The pipeline engine *)
Section PipelineFacts.
Context `{Host}.
Variable toolExecutor : string -> JSValue -> M ServerState JSValue.

Ltac ps_simpl := cbn [negb world metrics server journal fst snd].

Ltac unfold_try_block :=
  unfold try_block, bind, call_, ret, continue_, dispatch, log, with_world, on_world;
  ps_simpl.

Lemma try_block_skip (step : PipelineStep) (prev : JSValue) (ps : PipelineState)
      (condition : FnRef) (c : JSValue) (w' : World) :
  step_condition step = Some condition ->
  call_function condition prev (world (server ps)) = (Return c, w') ->
  truthy c = false ->
  try_block toolExecutor step prev ps
  = (Return Continue, log EvSkip (with_world ps w')).
Proof.
  intros Hcond Hcall Hfalse. unfold_try_block.
  now rewrite Hcond, Hcall, Hfalse.
Qed.

Lemma try_block_callback_raises (step : PipelineStep) (prev : JSValue) (ps : PipelineState)
      (e : Thrown) (w' : World) :
  CallbackRaises step prev (world (server ps)) e w' ->
  try_block toolExecutor step prev ps = (Raise e, with_world ps w').
Proof.
  intros [condition e' w1 Hcond Hcall | transform w1 e' w2 Hpass Htrans Hcall];
    unfold_try_block.
  - now rewrite Hcond, Hcall.
  - unfold ConditionPasses in Hpass. rewrite Htrans.
    destruct (step_condition step) as [condition |].
    + destruct Hpass as [c [Hc Htrue]]. rewrite Hc, Htrue. ps_simpl.
      now rewrite Hcall.
    + subst w1. now rewrite Hcall.
Qed.

Lemma try_block_dispatch (step : PipelineStep) (prev : JSValue) (ps : PipelineState)
      (params : JSValue) (w2 : World) :
  Prepared step prev (world (server ps)) params w2 ->
  try_block toolExecutor step prev ps
  = let (r, st') := toolExecutor (step_toolName step) params (server (with_world ps w2)) in
    (match r with
     | Return result => Return (Pushed result)
     | Raise e => Raise e
     end,
     {| server := st';
        journal := journal ps ++ [EvDispatch (step_toolName step) params r] |}).
Proof.
  intros [w1 [Hpass Hparams]]. unfold ConditionPasses in Hpass.
  destruct ps as [[m w] j]. cbn [server world] in Hpass. unfold_try_block.
  destruct (step_condition step) as [condition |]; ps_simpl;
    [destruct Hpass as [c [Hc Htrue]]; rewrite Hc; ps_simpl; rewrite Htrue | subst w1];
    ps_simpl;
    (destruct (step_transform step) as [transform |]; ps_simpl;
     [rewrite Hparams | destruct Hparams as [-> ->]]);
    ps_simpl;
    destruct (toolExecutor _ _ _) as [[result | e] st']; reflexivity.
Qed.

(** Every step is skipped, or prepared for dispatch, or one of its
    callbacks throws. *)
Lemma try_block_cases (step : PipelineStep) (prev : JSValue) (ps : PipelineState) :
  (exists condition c w',
     step_condition step = Some condition /\
     call_function condition prev (world (server ps)) = (Return c, w') /\
     truthy c = false)
  \/ (exists params w2, Prepared step prev (world (server ps)) params w2)
  \/ (exists e w', CallbackRaises step prev (world (server ps)) e w').
Proof.
  assert (Hafter : forall w1, ConditionPasses step prev (world (server ps)) w1 ->
            (exists params w2, Prepared step prev (world (server ps)) params w2)
            \/ (exists e w', CallbackRaises step prev (world (server ps)) e w')).
  { intros w1 Hpass.
    destruct (step_transform step) as [transform |] eqn:Htrans.
    - destruct (call_function transform prev w1) as [[params | e] w2] eqn:Hcall.
      + left. exists params, w2, w1. split; [exact Hpass |]. now rewrite Htrans.
      + right. exists e, w2. now apply transform_raises with transform w1.
    - left. exists (step_params step), w1, w1. split; [exact Hpass |]. now rewrite Htrans. }
  destruct (step_condition step) as [condition |] eqn:Hcond.
  - destruct (call_function condition prev (world (server ps))) as [[c | e] w1] eqn:Hcall.
    + destruct (truthy c) eqn:Htruthy.
      * right. apply (Hafter w1). unfold ConditionPasses. rewrite Hcond. now exists c.
      * left. now exists condition, c, w1.
    + right. right. exists e, w1. now apply condition_raises with condition.
  - right. apply (Hafter (world (server ps))). unfold ConditionPasses. now rewrite Hcond.
Qed.

(** One turn of the loop. *)
Lemma for_steps_cons (step : PipelineStep) (rest : list PipelineStep)
      (results : list JSValue) (prev : JSValue) (ps : PipelineState) :
  for_steps toolExecutor (step :: rest) results prev ps
  = match try_block toolExecutor step prev ps with
    | (Return Continue, ps1) => for_steps toolExecutor rest results prev ps1
    | (Return (Pushed result), ps1) =>
        for_steps toolExecutor rest (results ++ [result]) result ps1
    | (Raise error, ps1) => (Raise (ThrowError (step_error error)), ps1)
    end.
Proof.
  cbn [for_steps]. unfold bind, try_catch, throw.
  destruct (try_block toolExecutor step prev ps) as [[[| result] | error] ps1]; reflexivity.
Qed.

(** On a valid input the engine draws the context and runs the loop. *)
Lemma executePipeline_valid (pipelineInput data : JSValue) (ps : PipelineState) :
  safeParse EnhancedTypes.PipelineSchema pipelineInput = Some data ->
  executePipeline toolExecutor pipelineInput ps
  = for_steps toolExecutor (steps (as_Pipeline data)) [] JNull (started ps).
Proof.
  intros Hparse. unfold executePipeline. rewrite Hparse.
  unfold bind, lift_world, on_world, started, with_world.
  destruct (randomUUID (world (server ps))) as [requestId w1]. ps_simpl.
  destruct (Date_now w1) as [now w2]. reflexivity.
Qed.



End PipelineFacts.

Section PipelineClaims.
Context `{Host}.
Variable toolExecutor : string -> JSValue -> M ServerState JSValue.

(** C5.  A step whose condition is present and evaluates to a falsy value
    on [prevResult] is filtered out: the loop goes on with the remaining
    steps, the same accumulated results and the same [prevResult], from a
    state with the same metrics and a journal extended by the skip alone
    (no call of the tool executor); only the world may have been changed,
    by the evaluation of the condition. *)
Theorem skipped_step_is_filtered (step : PipelineStep) (rest : list PipelineStep)
        (results : list JSValue) (prevResult : JSValue) (ps : PipelineState)
        (condition : FnRef) (c : JSValue) (w' : World) :
  step_condition step = Some condition ->
  call_function condition prevResult (world (server ps)) = (Return c, w') ->
  truthy c = false ->
  exists ps1 : PipelineState,
    for_steps toolExecutor (step :: rest) results prevResult ps
    = for_steps toolExecutor rest results prevResult ps1 /\
    metrics (server ps1) = metrics (server ps) /\
    journal ps1 = journal ps ++ [EvSkip] /\
    world (server ps1) = w'.
Proof.
  intros Hcond Hcall Hfalse.
  exists (log EvSkip (with_world ps w')).
  rewrite for_steps_cons.
  rewrite try_block_skip with (1 := Hcond) (2 := Hcall) (3 := Hfalse).
  repeat split.
Qed.



(** C2, as the code has it.  An input that does not conform to the
    Pipeline schema makes [executePipeline] throw a plain [Error] with the
    message Invalid pipeline configuration and no code, in the state in
    which it was called: nothing was dispatched and nothing recorded.  The
    call handler answers with that error under the default code TOOL_ERROR
    and leaves the server state as it was. *)
Theorem invalid_pipeline_rejected_first (pipelineInput : JSValue) (ps : PipelineState) :
  safeParse EnhancedTypes.PipelineSchema pipelineInput = None ->
  executePipeline toolExecutor pipelineInput ps
  = (Raise (ThrowError (new_Error "Invalid pipeline configuration")), ps) /\
  thrown_code (ThrowError (new_Error "Invalid pipeline configuration")) = None /\
  (forall st : ServerState,
     callTool "executePipeline" pipelineInput st
     = (IsError (normalize (ThrowError (new_Error "Invalid pipeline configuration"))), st)) /\
  code (normalize (ThrowError (new_Error "Invalid pipeline configuration")))
  = JStr "TOOL_ERROR".
Proof.
  intros Hparse. unfold callTool, runPipeline, executePipeline. rewrite Hparse.
  repeat split.
Qed.

End PipelineClaims.

(** ** Parsing a pipeline keeps its steps *)
Section ParsedPipeline.

Lemma safeParse_object (shape : list (string * ZodSchema)) (v : JSValue) :
  safeParse (ZObject shape) v
  = match v with
    | JObj props => option_map JObj (parse_keys v props shape)
    | _ => None
    end.
Proof.
  destruct v; try reflexivity. cbn [safeParse]. f_equal.
  induction shape as [| [k sk] shape IH]; [reflexivity |].
  cbn [parse_keys]. now rewrite <- IH.
Qed.

Lemma safeParse_array (element : ZodSchema) (v : JSValue) :
  safeParse (ZArray element) v
  = match v with
    | JArr elems => option_map JArr (mapM_option (safeParse element) elems)
    | _ => None
    end.
Proof. reflexivity. Qed.

Let stepSchema : ZodSchema :=
  ZObject [ ("toolName", ZString);
            ("params", ZAny);
            ("condition", ZOptional ZFunction);
            ("transform", ZOptional ZFunction) ].

Lemma parsed_step (elem d : JSValue) :
  safeParse stepSchema elem = Some d ->
  as_PipelineStep d = as_PipelineStep elem.
Proof.
  destruct elem as [| | | | | | eprops |]; try discriminate.
  unfold as_PipelineStep. cbn [safeParse stepSchema get].
  destruct (assoc "toolName" eprops) as [[| | | | name | | |] |]; try discriminate;
    destruct (assoc "condition" eprops) as [[| | | | | | | c] |]; try discriminate;
    destruct (assoc "transform" eprops) as [[| | | | | | | t] |]; try discriminate;
    destruct (assoc "params" eprops) as [[| | | | | | |] |];
    cbn [option_map]; intros [= <-]; reflexivity.
Qed.

Lemma parsed_steps (elems ds : list JSValue) :
  mapM_option (safeParse stepSchema) elems = Some ds ->
  map as_PipelineStep ds = map as_PipelineStep elems.
Proof.
  revert ds. induction elems as [| elem rest IH]; intros ds Hparse.
  - injection Hparse as <-. reflexivity.
  - cbn [mapM_option] in Hparse.
    destruct (safeParse stepSchema elem) as [d |] eqn:Hd; [| discriminate].
    destruct (mapM_option (safeParse stepSchema) rest) as [ds' |]; [| discriminate].
    injection Hparse as <-. cbn [map].
    now rewrite (parsed_step _ Hd), (IH ds' eq_refl).
Qed.

(** The steps the engine runs are the steps of its input, in order. *)
Lemma parsed_pipeline_steps (pipelineInput data : JSValue) :
  safeParse EnhancedTypes.PipelineSchema pipelineInput = Some data ->
  steps (as_Pipeline data) = steps (as_Pipeline pipelineInput).
Proof.
  unfold EnhancedTypes.PipelineSchema. fold stepSchema. rewrite safeParse_object.
  destruct pipelineInput as [| | | | | | props |]; try discriminate.
  cbn [parse_keys]. rewrite safeParse_array.
  unfold as_Pipeline. cbn [steps get].
  destruct (assoc "steps" props) as [[| | | | | elems | |] |]; try discriminate.
  destruct (mapM_option (safeParse stepSchema) elems) as [ds |] eqn:Hds;
    [| discriminate].
  cbn [option_map].
  destruct (safeParse (ZOptional EnhancedTypes.MCPContextSchema) _) as [c |];
    [| discriminate].
  intros [= <-]. cbn [get assoc String.eqb Ascii.eqb Bool.eqb as_array].
  now apply parsed_steps.
Qed.

End ParsedPipeline.

(** ** Results and journal of a run *)



Section PipelineJournal.
Context `{Host}.
Variable toolExecutor : string -> JSValue -> M ServerState JSValue.



End PipelineJournal.

(** ** Concrete runs *)

(** The scenarios of the specification. *)
Example dispatch_listIssues :
  @executeTool quietHost "listIssues"
     (JObj [("teamId", JStr "T1"); ("first", JNum (Finite 10))]) quiet_server
  = (Return no_issues,
     quiet_state [ {| requestDuration := 6; toolName := "listIssues";
                      success := true; errorType := None;
                      retryCount := 0; timestamp := 7 |} ] 8).
Proof. reflexivity. Qed.

Example followup_is_skipped :
  fst (@runPipeline quietHost followup_pipeline quiet_server) = Return [no_issues] /\
  journal (snd (@runPipeline quietHost followup_pipeline quiet_server))
  = [EvDispatch "listIssues" (JObj [("teamId", JStr "T1")]) (Return no_issues); EvSkip].
Proof. split; reflexivity. Qed.

Example createIssue_without_title :
  @executeTool quietHost "createIssue" missing_title quiet_server
  = (Raise (ThrowError (new_Error "Invalid issue creation arguments")),
     quiet_state [ {| requestDuration := 1; toolName := "createIssue";
                      success := false; errorType := Some "Error";
                      retryCount := 0; timestamp := 2 |} ] 3).
Proof. reflexivity. Qed.

Example empty_pipeline :
  @runPipeline quietHost (JObj [("steps", JArr [])]) quiet_server
  = (Return [], {| server := quiet_state [] 1; journal := [] |}).
Proof. reflexivity. Qed.



(** Where C2 fails: the error for an invalid pipeline has no code, and the
    call boundary reports it under TOOL_ERROR. *)
Lemma invalid_pipeline_has_no_kind :
  fst (@runPipeline quietHost JNull quiet_server)
  = Raise (ThrowError (new_Error "Invalid pipeline configuration")) /\
  thrown_code (ThrowError (new_Error "Invalid pipeline configuration"))
  <> Some (JStr "INVALID_PIPELINE") /\
  fst (@callTool quietHost "executePipeline" JNull quiet_server)
  = IsError (normalize (ThrowError (new_Error "Invalid pipeline configuration"))) /\
  code (normalize (ThrowError (new_Error "Invalid pipeline configuration")))
  <> JStr "INVALID_PIPELINE".
Proof. repeat split; discriminate. Qed.

Lemma invalid_pipeline_rejected_first_witness :
  @executePipeline quietHost executeTool JNull quiet_run
  = (Raise (ThrowError (new_Error "Invalid pipeline configuration")), quiet_run).
Proof.
  apply (proj1 (@invalid_pipeline_rejected_first quietHost executeTool JNull quiet_run
                  eq_refl)).
Defined.

Lemma skipped_step_is_filtered_witness :
  exists ps1 : @PipelineState quietHost,
    for_steps executeTool (steps (as_Pipeline (parsed eager_pipeline))) [no_issues]
              no_issues quiet_run
    = for_steps executeTool [as_PipelineStep list_step] [no_issues] no_issues ps1 /\
    metrics (server ps1) = [] /\
    journal ps1 = [EvSkip] /\
    world (server ps1) = 0.
Proof.
  apply (@skipped_step_is_filtered quietHost executeTool
           (as_PipelineStep followup_step) [as_PipelineStep list_step]
           [no_issues] no_issues quiet_run 0%nat (JBool false) 0);
    reflexivity.
Defined.



(** * Further properties *)

(** ** The queries of the metrics log *)
Section MetricsQueries.

Lemma divide_pos_den (n : Z) (d : nat) :
  d <> O -> Z.pos (Qden (divide n d)) = Z.of_nat d.
Proof.
  intros Hd. unfold divide. cbn [Qden].
  rewrite <- positive_nat_Z. now rewrite Nat2Pos.id.
Qed.

Lemma divide_bounds (n lo hi : Z) (d : nat) :
  d <> O ->
  lo * Z.of_nat d <= n <= hi * Z.of_nat d ->
  (inject_Z lo <= divide n d <= inject_Z hi)%Q.
Proof.
  intros Hd [Hlo Hhi]. unfold Qle.
  rewrite (divide_pos_den n Hd). unfold divide, inject_Z. cbn [Qnum Qden]. lia.
Qed.

Lemma divide_zero (n : Z) (d : nat) : d <> O -> (divide n d == 0)%Q <-> n = 0.
Proof. intros Hd. unfold Qeq, divide. cbn [Qnum Qden]. lia. Qed.

Lemma divide_one (n : Z) (d : nat) : d <> O -> (divide n d == 1)%Q <-> n = Z.of_nat d.
Proof.
  intros Hd. unfold Qeq. rewrite Z.mul_1_l.
  change (Z.pos (Qden 1)) with 1. rewrite Z.mul_1_r.
  change (Qnum (divide n d)) with n.
  rewrite (divide_pos_den n Hd). reflexivity.
Qed.

Lemma filter_all {A : Type} (f : A -> bool) (l : list A) :
  length (filter f l) = length l <-> Forall (fun x => f x = true) l.
Proof.
  induction l as [| x l IH]; cbn [filter length].
  - split; [constructor | reflexivity].
  - pose proof (filter_length_le f l) as Hle.
    destruct (f x) eqn:Hx; cbn [length]; split.
    + intros Hlen. constructor; [exact Hx | apply IH; lia].
    + intros Hall. inversion Hall; subst. f_equal. now apply IH.
    + lia.
    + intros Hall. inversion Hall; subst. congruence.
Qed.

Lemma filter_none {A : Type} (f : A -> bool) (l : list A) :
  length (filter f l) = O <-> Forall (fun x => f x = false) l.
Proof.
  induction l as [| x l IH]; cbn [filter length].
  - split; [constructor | reflexivity].
  - destruct (f x) eqn:Hx; cbn [length]; split.
    + discriminate.
    + intros Hall. inversion Hall; subst. congruence.
    + intros Hlen. constructor; [exact Hx | now apply IH].
    + intros Hall. inversion Hall; subst. now apply IH.
Qed.


(** X1.  The error rate lies between 0 and 1; it is 0 exactly when no
    relevant entry failed (in particular when there is none), and 1 exactly
    when there is a relevant entry and all of them failed. *)
Theorem getErrorRate_range (metrics : list MCPMetrics) (tool : option string) :
  (0 <= getErrorRate metrics tool <= 1)%Q /\
  ((getErrorRate metrics tool == 0)%Q
   <-> Forall (fun m => success m = true) (relevantMetrics metrics tool)) /\
  ((getErrorRate metrics tool == 1)%Q
   <-> relevantMetrics metrics tool <> [] /\
       Forall (fun m => success m = false) (relevantMetrics metrics tool)).
Proof.
  unfold getErrorRate.
  set (relevant := relevantMetrics metrics tool).
  set (failed := fun m : MCPMetrics => negb (success m)).
  pose proof (filter_length_le failed relevant) as Hle.
  assert (Hsucc : Forall (fun m => failed m = false) relevant
                  <-> Forall (fun m => success m = true) relevant).
  { unfold failed. split; apply Forall_impl; intros m; now destruct (success m). }
  assert (Hfail : Forall (fun m => failed m = true) relevant
                  <-> Forall (fun m => success m = false) relevant).
  { unfold failed. split; apply Forall_impl; intros m; now destruct (success m). }
  destruct (Nat.eqb (length relevant) 0) eqn:Hempty.
  - apply Nat.eqb_eq in Hempty.
    assert (Hnil : relevant = []) by now destruct relevant.
    rewrite Hnil. repeat split; try easy; intros [Hne _]; now contradiction Hne.
  - apply Nat.eqb_neq in Hempty.
    assert (Hne : relevant <> []) by (intros Hnil; now rewrite Hnil in Hempty).
    split; [| split].
    + change 0%Q with (inject_Z 0). change 1%Q with (inject_Z 1).
      apply divide_bounds; [exact Hempty | lia].
    + rewrite (divide_zero _ Hempty), <- Hsucc, <- filter_none. lia.
    + rewrite (divide_one _ Hempty), <- Hfail, <- filter_all. split.
      * intros Hlen. split; [exact Hne | lia].
      * intros [_ Hlen]. lia.
Qed.


(** X3.  A query for the empty tool name is the unscoped query; a query
    for any other name sees the entries of that tool only, so that entries
    of other tools can be added or removed without changing its answer. *)
Theorem queries_scope (metrics : list MCPMetrics) :
  (getErrorRate metrics (Some "") = getErrorRate metrics None /\
   getAverageRequestDuration metrics (Some "")
   = getAverageRequestDuration metrics None) /\
  (forall (name : string) (before after : list MCPMetrics) (m : MCPMetrics),
     name <> "" ->
     toolName m <> name ->
     metrics = before ++ m :: after ->
     getErrorRate metrics (Some name) = getErrorRate (before ++ after) (Some name) /\
     getAverageRequestDuration metrics (Some name)
     = getAverageRequestDuration (before ++ after) (Some name) /\
     MetricsCollector.getMetricsForTool metrics name
     = MetricsCollector.getMetricsForTool (before ++ after) name).
Proof.
  split; [split; reflexivity |].
  intros name before after m Hname Hother ->.
  assert (Hsame : MetricsCollector.getMetricsForTool (before ++ m :: after) name
                  = MetricsCollector.getMetricsForTool (before ++ after) name).
  { unfold MetricsCollector.getMetricsForTool. rewrite !filter_app. cbn [filter].
    apply String.eqb_neq in Hother. now rewrite Hother. }
  unfold getErrorRate, getAverageRequestDuration, relevantMetrics.
  apply String.eqb_neq in Hname. rewrite Hname, Hsame. repeat split.
Qed.

End MetricsQueries.

Section MetricsRecordLookup.
Context `{Host}.

(** X4.  Recording into a log that is not full adds the stamped metric at
    the end of its tool's entries and leaves the entries of every other
    tool as they were; recording into a full log drops the oldest entry. *)
Theorem getMetricsForTool_after_record (metric : MetricInput) (log : list MCPMetrics)
        (w : World) (name : string) :
  ((length log < 1000)%nat ->
   MetricsCollector.getMetricsForTool (fst (MetricsCollector.record metric log w)) name
   = if String.eqb (in_toolName metric) name
     then MetricsCollector.getMetricsForTool log name
          ++ [MetricsCollector.stamp metric (fst (Date_now w))]
     else MetricsCollector.getMetricsForTool log name) /\
  (length log = 1000%nat ->
   fst (MetricsCollector.record metric log w)
   = tl log ++ [MetricsCollector.stamp metric (fst (Date_now w))]).
Proof.
  unfold MetricsCollector.record.
  destruct (Date_now w) as [now w']. cbn [fst].
  rewrite push_keep_last.
  change (Z.to_nat MetricsCollector.maxMetricsCount) with 1000%nat.
  split; intros Hlen.
  - rewrite keep_last_short by (rewrite length_app; cbn [length]; lia).
    unfold MetricsCollector.getMetricsForTool. rewrite filter_app. cbn [filter].
    change (toolName (MetricsCollector.stamp metric now)) with (in_toolName metric).
    destruct (String.eqb (in_toolName metric) name); [reflexivity | apply app_nil_r].
  - unfold keep_last. rewrite length_app, Hlen. cbn [length].
    change (1000 + 1 - 1000)%nat with 1%nat.
    destruct log as [| oldest log]; [discriminate Hlen | reflexivity].
Qed.

End MetricsRecordLookup.


Lemma queries_scope_witness :
  getErrorRate sample_log (Some "listIssues")
  = getErrorRate (firstn 1 sample_log ++ skipn 2 sample_log) (Some "listIssues").
Proof.
  apply (proj2 (queries_scope sample_log) "listIssues"
               (firstn 1 sample_log) (skipn 2 sample_log)
               {| requestDuration := 1; toolName := "createIssue"; success := false;
                  errorType := Some "Error"; retryCount := 0; timestamp := 10 |}).
  - discriminate.
  - discriminate.
  - reflexivity.
Defined.

Lemma getMetricsForTool_after_record_witness :
  MetricsCollector.getMetricsForTool
    (fst (@MetricsCollector.record quietHost (sample_metric 3) sample_log 30)) "listIssues"
  = MetricsCollector.getMetricsForTool sample_log "listIssues"
    ++ [MetricsCollector.stamp (sample_metric 3) 30].
Proof.
  apply (proj1 (@getMetricsForTool_after_record quietHost (sample_metric 3) sample_log 30
                  "listIssues")).
  cbn. lia.
Defined.

(** ** The metrics written by the server *)

Lemma keep_last_app {A : Type} (n : nat) (l l' : list A) :
  keep_last n (keep_last n l ++ l') = keep_last n (l ++ l').
Proof.
  unfold keep_last.
  rewrite !length_app, length_skipn, !skipn_app, skipn_skipn, length_skipn.
  destruct (Nat.le_gt_cases (length l) n) as [Hle | Hgt].
  - replace (length l - n)%nat with 0%nat by lia.
    rewrite Nat.sub_0_r, Nat.add_0_r. cbn [skipn]. reflexivity.
  - f_equal.
    + f_equal. lia.
    + f_equal. lia.
Qed.

Lemma push_all_keep_last (news log : list MCPMetrics) :
  news <> [] \/ (length log <= 1000)%nat ->
  push_all news log = keep_last 1000 (log ++ news).
Proof.
  revert log. induction news as [| m news IH]; intros log Hcase.
  - destruct Hcase as [Hne | Hlen]; [now contradiction Hne |].
    cbn. rewrite app_nil_r. symmetry. now apply keep_last_short.
  - cbn [push_all fold_left]. fold (push_all news (MetricsCollector.push m log)).
    rewrite IH.
    + rewrite push_keep_last.
      change (Z.to_nat MetricsCollector.maxMetricsCount) with 1000%nat.
      rewrite keep_last_app, <- app_assoc. reflexivity.
    + right. rewrite push_keep_last, length_keep_last.
      change (Z.to_nat MetricsCollector.maxMetricsCount) with 1000%nat. lia.
Qed.

Lemma push_all_app (news more log : list MCPMetrics) :
  push_all (news ++ more) log = push_all more (push_all news log).
Proof. unfold push_all. apply fold_left_app. Qed.

Lemma Forall_skipn {A : Type} (P : A -> Prop) (n : nat) (l : list A) :
  Forall P l -> Forall P (skipn n l).
Proof.
  revert l. induction n as [| n IH]; intros l Hl; [exact Hl |].
  destruct l as [| x l]; [constructor |]. inversion Hl; subst. now apply IH.
Qed.

(** The invariant of the log: bounded, and written by the dispatcher. *)
Lemma push_all_invariant (news log : list MCPMetrics) :
  Forall dispatcher_metric news ->
  (length log <= 1000)%nat /\ Forall dispatcher_metric log ->
  (length (push_all news log) <= 1000)%nat /\ Forall dispatcher_metric (push_all news log).
Proof.
  intros Hnews [Hlen Hlog].
  rewrite push_all_keep_last by now right.
  split.
  - rewrite length_keep_last. lia.
  - unfold keep_last. apply Forall_skipn. apply Forall_app. now split.
Qed.

Section ServerMetrics.
Context `{Host}.

Lemma tool_call_returns (name : string) (params : JSValue) (w : World) :
  is_return (fst (tool_call name params w)) = true -> registered name = true.
Proof.
  unfold tool_call, registered.
  destruct (String.eqb name "listIssues"); [reflexivity |].
  destruct (String.eqb name "createIssue"); [reflexivity |].
  discriminate.
Qed.

(** The metric written by one call of [executeTool]. *)
Lemma executeTool_metric (name : string) (params : JSValue) (st : ServerState) :
  exists m : MCPMetrics,
    metrics (snd (executeTool name params st)) = MetricsCollector.push m (metrics st) /\
    summary m = (name, is_return (fst (executeTool name params st))) /\
    dispatcher_metric m.
Proof.
  pose proof (executeTool_unfold name params st) as Hrun.
  destruct (Date_now (world st)) as [startTime w0].
  pose proof (tool_call_returns name params w0) as Hreg.
  destruct (tool_call name params w0) as [r w1].
  destruct (Date_now w1) as [endTime w2].
  destruct (Date_now w2) as [now w3].
  cbv beta iota in Hrun. rewrite Hrun. cbn [fst snd metrics] in *.
  eexists. split; [reflexivity |]. split; [reflexivity |].
  unfold dispatcher_metric. cbn [retryCount success errorType toolName].
  destruct r as [result | error]; cbn [is_return] in *; repeat split; try easy.
Qed.

(** The journal and the metrics of the loop run by the server: every call
    of the tool executor pushes one metric, nothing else does. *)
Lemma server_for_steps (todo : list PipelineStep) :
  forall (results : list JSValue) (prev : JSValue) (ps : PipelineState),
  exists (evs : list Event) (news : list MCPMetrics),
    journal (snd (for_steps executeTool todo results prev ps)) = journal ps ++ evs /\
    metrics (server (snd (for_steps executeTool todo results prev ps)))
    = push_all news (metrics (server ps)) /\
    map summary news = dispatches evs /\
    Forall dispatcher_metric news.
Proof.
  induction todo as [| step rest IH]; intros results prev ps.
  - exists [], []. cbn. rewrite app_nil_r. repeat split. constructor.
  - rewrite for_steps_cons.
    destruct (try_block_cases step prev ps)
      as [[condition [c [w' [Hcond [Hcall Hfalse]]]]]
         | [[params [w2 Hprep]] | [e [w' Hraises]]]].
    + rewrite try_block_skip with (1 := Hcond) (2 := Hcall) (3 := Hfalse).
      destruct (IH results prev (log EvSkip (with_world ps w')))
        as [evs [news [Hj [Hm [Hsum Hwf]]]]].
      exists (EvSkip :: evs), news. rewrite Hj, Hm.
      cbn [log journal with_world server metrics dispatches].
      rewrite <- app_assoc. repeat split; assumption.
    + rewrite try_block_dispatch with (1 := Hprep).
      destruct (executeTool_metric (step_toolName step) params (server (with_world ps w2)))
        as [m [Hpush [Hsummary Hm_wf]]].
      destruct (executeTool (step_toolName step) params (server (with_world ps w2)))
        as [[result | e] st']; cbn [fst snd is_return] in Hpush, Hsummary.
      * match goal with
        | |- context [for_steps _ _ _ _ ?p] =>
            destruct (IH (results ++ [result]) result p)
              as [evs [news [Hj [Hm [Hsum Hwf]]]]]
        end.
        exists (EvDispatch (step_toolName step) params (Return result) :: evs), (m :: news).
        rewrite Hj, Hm. cbn [journal server metrics dispatches map is_return].
        rewrite <- app_assoc, Hpush, Hsummary, Hsum.
        repeat split. now constructor.
      * exists [EvDispatch (step_toolName step) params (Raise e)], [m].
        cbn [fst snd journal server metrics dispatches map is_return push_all fold_left].
        rewrite Hpush, Hsummary. cbn [with_world server metrics].
        repeat split. now constructor.
    + rewrite try_block_callback_raises with (1 := Hraises).
      exists [], []. cbn. rewrite app_nil_r. repeat split. constructor.
Qed.

Lemma server_runPipeline (pipelineInput : JSValue) (st : ServerState) :
  exists news : list MCPMetrics,
    metrics (server (snd (runPipeline pipelineInput st))) = push_all news (metrics st) /\
    map summary news = dispatches (journal (snd (runPipeline pipelineInput st))) /\
    Forall dispatcher_metric news.
Proof.
  unfold runPipeline.
  destruct (safeParse EnhancedTypes.PipelineSchema pipelineInput) as [data |] eqn:Hparse.
  - rewrite executePipeline_valid with (1 := Hparse).
    match goal with
    | |- context [for_steps _ ?todo ?results ?prev ?p] =>
        destruct (server_for_steps todo results prev p) as [evs [news [Hj [Hm [Hs Hwf]]]]]
    end.
    exists news. rewrite Hj, Hm. cbn. repeat split; assumption.
  - unfold executePipeline. rewrite Hparse. exists []. cbn. repeat split. constructor.
Qed.

(** What a call of the handler writes into the log. *)
Lemma callTool_metrics (name : string) (arguments : JSValue) (st : ServerState) :
  exists news : list MCPMetrics,
    metrics (snd (callTool name arguments st)) = push_all news (metrics st) /\
    Forall dispatcher_metric news.
Proof.
  unfold callTool. destruct (String.eqb name "executePipeline").
  - destruct (server_runPipeline arguments st) as [news [Hm [_ Hwf]]].
    destruct (runPipeline arguments st) as [[results | error] ps];
      cbn [fst snd] in *; exists news; now split.
  - destruct (executeTool_metric name arguments st) as [m [Hm [_ Hwf]]].
    destruct (executeTool name arguments st) as [[result | error] st'];
      cbn [fst snd] in *; exists [m]; (split; [exact Hm | now constructor]).
Qed.

Lemma serve_invariant (requests : list (string * JSValue)) :
  forall st : ServerState,
    (length (metrics st) <= 1000)%nat /\ Forall dispatcher_metric (metrics st) ->
    (length (metrics (snd (serve requests st))) <= 1000)%nat /\
    Forall dispatcher_metric (metrics (snd (serve requests st))).
Proof.
  induction requests as [| [name arguments] rest IH]; intros st Hinv; [exact Hinv |].
  cbn [serve].
  destruct (callTool_metrics name arguments st) as [news [Hm Hwf]].
  destruct (callTool name arguments st) as [response st']. cbn [snd] in Hm.
  specialize (IH st'). destruct (serve rest st') as [responses st'']. cbn [snd] in *.
  apply IH. rewrite Hm. now apply push_all_invariant.
Qed.

(** X5.  Whatever calls the server has handled since it started, its log
    holds at most 1000 metrics, each with retry count 0, with an error type
    exactly when it records a failure, and recording a success only under
    the names listIssues and createIssue. *)
Theorem server_log_invariant (requests : list (string * JSValue)) (w : World) :
  let log := metrics (snd (serve requests (fresh_server _ w))) in
  (length log <= 1000)%nat /\
  Forall (fun m =>
            retryCount m = 0 /\
            (success m = true <-> errorType m = None) /\
            (success m = true ->
             toolName m = "listIssues" \/ toolName m = "createIssue")) log.
Proof.
  intros log.
  destruct (serve_invariant requests (fresh_server _ w)) as [Hlen Hwf].
  { split; [cbn; lia | constructor]. }
  split; [exact Hlen |].
  revert Hwf. apply Forall_impl. intros m [Hretry [Htype Hreg]].
  repeat split; try tauto.
  intros Hok. specialize (Hreg Hok). unfold registered in Hreg.
  apply orb_true_iff in Hreg. rewrite !String.eqb_eq in Hreg. exact Hreg.
Qed.

(** X6.  A run of the pipeline engine by the server pushes one metric per
    call of the tool executor, in the order of the calls, under the tool
    name of the step and with the outcome of the call as success flag;
    skipped steps and failing callbacks push nothing. *)
Theorem pipeline_run_metrics (pipelineInput : JSValue) (st : ServerState) :
  (length (metrics st) <= 1000)%nat ->
  exists news : list MCPMetrics,
    metrics (server (snd (runPipeline pipelineInput st)))
    = keep_last 1000 (metrics st ++ news) /\
    map (fun m => (toolName m, success m)) news
    = dispatches (journal (snd (runPipeline pipelineInput st))) /\
    Forall (fun m => retryCount m = 0) news.
Proof.
  intros Hlen.
  destruct (server_runPipeline pipelineInput st) as [news [Hm [Hs Hwf]]].
  exists news. split; [| split].
  - rewrite Hm. apply push_all_keep_last. now right.
  - exact Hs.
  - revert Hwf. apply Forall_impl. now intros m [Hretry _].
Qed.

End ServerMetrics.

Lemma pipeline_run_metrics_witness :
  exists news : list MCPMetrics,
    metrics (server (snd (@runPipeline quietHost followup_pipeline quiet_server)))
    = keep_last 1000 ([] ++ news) /\
    map (fun m => (toolName m, success m)) news = [("listIssues", true)] /\
    Forall (fun m => retryCount m = 0) news.
Proof.
  apply (@pipeline_run_metrics quietHost followup_pipeline quiet_server).
  cbn. lia.
Defined.

(** ** The periodic report *)
Section Report.
Context `{Host}.

Lemma unregistered_entries_failed (log : list MCPMetrics) (name : string) :
  Forall dispatcher_metric log ->
  registered name = false ->
  Forall (fun m => success m = false) (MetricsCollector.getMetricsForTool log name).
Proof.
  intros Hwf Hname. unfold MetricsCollector.getMetricsForTool.
  apply Forall_forall. intros m Hin. apply filter_In in Hin. destruct Hin as [Hin Heq].
  apply String.eqb_eq in Heq.
  rewrite Forall_forall in Hwf. destruct (Hwf m Hin) as [_ [_ Hreg]].
  destruct (success m); [| reflexivity].
  rewrite Heq, Hname in Hreg. now specialize (Hreg eq_refl).
Qed.

Lemma error_rate_all_failed (log : list MCPMetrics) :
  log <> [] ->
  Forall (fun m => success m = false) log ->
  (getErrorRate log None == 1)%Q.
Proof.
  intros Hne Hfailed. unfold getErrorRate, relevantMetrics.
  destruct (Nat.eqb (length log) 0) eqn:Hempty.
  - apply Nat.eqb_eq in Hempty. destruct log; [now contradiction Hne | discriminate].
  - apply Nat.eqb_neq in Hempty. apply divide_one; [exact Hempty |].
    f_equal. apply filter_all. revert Hfailed. apply Forall_impl.
    intros m ->. reflexivity.
Qed.

(** X7.  In the report of a running server, the error rate of a tool name
    that [executeTool] does not know is 0 when the log has no entry under
    that name and 1 otherwise; this holds of the line for executePipeline,
    which is among the reported names. *)
Theorem report_of_unregistered_tool (requests : list (string * JSValue)) (w : World)
        (name : string) :
  name <> "" ->
  registered name = false ->
  let log := metrics (snd (serve requests (fresh_server _ w))) in
  (MetricsCollector.getMetricsForTool log name = [] ->
   getErrorRate log (Some name) = 0%Q) /\
  (MetricsCollector.getMetricsForTool log name <> [] ->
   (getErrorRate log (Some name) == 1)%Q) /\
  (forall line : ToolReport,
     In line (report_tools (metricsReport log)) ->
     report_tool line = "executePipeline" ->
     (report_errorRate line == 0)%Q \/ (report_errorRate line == 1)%Q).
Proof.
  intros Hname Hunreg log.
  assert (Hwf : Forall dispatcher_metric log).
  { apply (serve_invariant requests (fresh_server _ w)).
    split; [cbn; lia | constructor]. }
  assert (Hrate : forall n, n <> "" -> registered n = false ->
            (MetricsCollector.getMetricsForTool log n = [] ->
             getErrorRate log (Some n) = 0%Q) /\
            (MetricsCollector.getMetricsForTool log n <> [] ->
             (getErrorRate log (Some n) == 1)%Q)).
  { intros n Hn Hreg.
    assert (Hscoped : getErrorRate log (Some n)
                      = getErrorRate (MetricsCollector.getMetricsForTool log n) None).
    { unfold getErrorRate, relevantMetrics. apply String.eqb_neq in Hn. now rewrite Hn. }
    rewrite Hscoped. split.
    - intros ->. reflexivity.
    - intros Hne. apply error_rate_all_failed; [exact Hne |].
      now apply unregistered_entries_failed. }
  split; [apply (Hrate name Hname Hunreg) |].
  split; [apply (Hrate name Hname Hunreg) |].
  intros line Hin Htool. cbn [metricsReport report_tools map In] in Hin.
  destruct Hin as [<- | [<- | [<- | []]]]; cbn [report_tool report_errorRate] in *;
    try discriminate Htool.
  destruct (Hrate "executePipeline" ltac:(discriminate) eq_refl) as [Hnone Hsome].
  destruct (MetricsCollector.getMetricsForTool log "executePipeline") eqn:Hentries.
  - left. rewrite Hnone by reflexivity. reflexivity.
  - right. apply Hsome. discriminate.
Qed.

End Report.

(** ** Steps the dispatcher does not know *)
Section UnknownStep.
Context `{Host}.

(** X8.  A step that reaches the dispatch under a tool name other than
    listIssues and createIssue (executePipeline included: pipelines do not
    nest) aborts the run with the message Unknown tool, the code
    PIPELINE_STEP_ERROR and the retryable flag false; the call is journalled
    and pushes one failure metric under that name. *)
Theorem unknown_step_aborts (step : PipelineStep) (rest : list PipelineStep)
        (results : list JSValue) (prevResult : JSValue) (ps : PipelineState)
        (params : JSValue) (w2 : World) :
  registered (step_toolName step) = false ->
  Prepared step prevResult (world (server ps)) params w2 ->
  let unknown := ThrowError (new_Error ("Unknown tool: " ++ step_toolName step)%string) in
  exists (ps' : PipelineState) (m : MCPMetrics),
    for_steps executeTool (step :: rest) results prevResult ps
    = (Raise (ThrowError
                {| err_name := "Error";
                   err_message := ("Unknown tool: " ++ step_toolName step)%string;
                   err_code := Some (JStr "PIPELINE_STEP_ERROR");
                   err_retryable := Some false |}),
       ps') /\
    journal ps' = journal ps ++ [EvDispatch (step_toolName step) params (Raise unknown)] /\
    metrics (server ps') = MetricsCollector.push m (metrics (server ps)) /\
    toolName m = step_toolName step /\
    success m = false.
Proof.
  intros Hunreg Hprep unknown.
  rewrite for_steps_cons. rewrite try_block_dispatch with (1 := Hprep).
  destruct (executeTool_metric (step_toolName step) params (server (with_world ps w2)))
    as [m [Hpush [Hsummary _]]].
  pose proof (executeTool_outcome (step_toolName step) params (server (with_world ps w2)))
    as Hout.
  unfold tool_call, registered in Hout, Hunreg.
  apply orb_false_iff in Hunreg. destruct Hunreg as [Hl Hc]. rewrite Hl, Hc in Hout.
  cbn [fst] in Hout.
  destruct (executeTool (step_toolName step) params (server (with_world ps w2)))
    as [r st']. cbn [fst snd] in *. subst r.
  eexists. exists m. split; [reflexivity |]. cbn [journal server].
  injection Hsummary as Hn Hs. repeat split; assumption.
Qed.

(** X9.  Valid arguments reach the Linear client as the caller gave them:
    the outcome of [executeTool] is the outcome of the client on [params]
    itself.  In particular the default of 50 that the schema of listIssues
    declares for first exists in the parsed data only: when the caller gives
    no first, the client receives none. *)
Theorem client_receives_caller_params (params : JSValue) (st : ServerState) :
  let w0 := snd (Date_now (world st)) in
  (EnhancedTypes.isValidListIssuesArgs params = true ->
   fst (executeTool "listIssues" params st) = fst (client_issues params w0)) /\
  (EnhancedTypes.isValidIssueCreateArgs params = true ->
   fst (executeTool "createIssue" params st) = fst (client_createIssue params w0)) /\
  (EnhancedTypes.isValidListIssuesArgs params = true ->
   has_prop "first" params = false ->
   get params "first" = JUndefined /\
   exists data,
     safeParse EnhancedTypes.ListIssuesInputSchema params = Some data /\
     get data "first" = JNum (Finite 50)).
Proof.
  intros w0. split; [| split].
  - intros Hv. rewrite executeTool_outcome. unfold tool_call. fold w0.
    cbn [String.eqb Ascii.eqb Bool.eqb]. now rewrite Hv.
  - intros Hv. rewrite executeTool_outcome. unfold tool_call. fold w0.
    cbn [String.eqb Ascii.eqb Bool.eqb]. now rewrite Hv.
  - unfold EnhancedTypes.isValidListIssuesArgs, EnhancedTypes.ListIssuesInputSchema.
    rewrite safeParse_object.
    destruct params as [| | | | | | props |]; try discriminate.
    cbn [parse_keys has_prop get].
    intros Hv Hfirst.
    destruct (assoc "first" props) as [f |]; [discriminate Hfirst |].
    split; [reflexivity |].
    cbn [safeParse] in *.
    destruct (assoc "teamId" props) as [[| | | | team | | |] |];
      try discriminate Hv; eexists; (split; [reflexivity | reflexivity]).
Qed.

End UnknownStep.

(** ** How runs of the engine compose *)
Section PipelineComposition.
Context `{Host}.
Variable toolExecutor : string -> JSValue -> M ServerState JSValue.

Lemma last_cons_default {A : Type} (x d : A) (l : list A) :
  last (x :: l) d = last l x.
Proof.
  revert x d. induction l as [| y l IH]; intros x d; [reflexivity |].
  change (last (x :: y :: l) d) with (last (y :: l) d).
  now rewrite !IH.
Qed.

(** X10.  Two valid pipelines with the same steps run alike, whatever
    context they carry: the supplied request id, time stamp, timeout and
    retry count have no effect on the outcome or on the state. *)
Theorem context_is_ignored (input1 input2 data1 data2 : JSValue) (ps : PipelineState) :
  safeParse EnhancedTypes.PipelineSchema input1 = Some data1 ->
  safeParse EnhancedTypes.PipelineSchema input2 = Some data2 ->
  get input1 "steps" = get input2 "steps" ->
  executePipeline toolExecutor input1 ps = executePipeline toolExecutor input2 ps.
Proof.
  intros Hparse1 Hparse2 Hsteps.
  rewrite executePipeline_valid with (1 := Hparse1).
  rewrite executePipeline_valid with (1 := Hparse2).
  rewrite (parsed_pipeline_steps _ Hparse1), (parsed_pipeline_steps _ Hparse2).
  unfold as_Pipeline. cbn [steps]. now rewrite Hsteps.
Qed.

(** X11.  Once a step fails, the steps declared after it play no part:
    the run of a list of steps that fails is the run of that list followed
    by any further steps. *)
Theorem steps_after_failure_are_ignored (todo more : list PipelineStep) :
  forall (results : list JSValue) (prev : JSValue) (ps : PipelineState) (error : Thrown),
    fst (for_steps toolExecutor todo results prev ps) = Raise error ->
    for_steps toolExecutor (todo ++ more) results prev ps
    = for_steps toolExecutor todo results prev ps.
Proof.
  induction todo as [| step rest IH]; intros results prev ps error Hfail.
  - discriminate Hfail.
  - cbn [app]. rewrite !for_steps_cons. rewrite for_steps_cons in Hfail.
    destruct (try_block toolExecutor step prev ps) as [[[| result] | cause] ps1].
    + now apply IH with error.
    + now apply IH with error.
    + reflexivity.
Qed.

(** X12.  A run that returns can be cut anywhere: running a list of steps
    and then further steps is running the further steps from the results
    accumulated so far, with the last result produced (or the previous
    result, when every step was skipped) as previous result. *)
Theorem pipeline_runs_compose (todo : list PipelineStep) :
  forall (results : list JSValue) (prev : JSValue) (ps : PipelineState)
         (out : list JSValue) (ps1 : PipelineState),
    for_steps toolExecutor todo results prev ps = (Return out, ps1) ->
    exists news : list JSValue,
      out = results ++ news /\
      forall more : list PipelineStep,
        for_steps toolExecutor (todo ++ more) results prev ps
        = for_steps toolExecutor more out (last news prev) ps1.
Proof.
  induction todo as [| step rest IH]; intros results prev ps out ps1 Hrun.
  - injection Hrun as <- <-. exists []. split; [now rewrite app_nil_r | reflexivity].
  - rewrite for_steps_cons in Hrun.
    destruct (try_block toolExecutor step prev ps) as [[[| result] | cause] ps0] eqn:Htry.
    + destruct (IH _ _ _ _ _ Hrun) as [news [Hout Hmore]].
      exists news. split; [exact Hout |]. intros more.
      cbn [app]. rewrite for_steps_cons, Htry. apply Hmore.
    + destruct (IH _ _ _ _ _ Hrun) as [news [Hout Hmore]].
      exists (result :: news). split; [now rewrite Hout, <- app_assoc |]. intros more.
      cbn [app]. rewrite for_steps_cons, Htry, last_cons_default. apply Hmore.
    + discriminate Hrun.
Qed.

End PipelineComposition.

(** ** Schemas and what the code produces *)
Section Schemas.
Context `{Host}.

Lemma mapM_option_id {A : Type} (f : A -> option A) (l : list A) :
  Forall (fun x => f x = Some x) l -> mapM_option f l = Some l.
Proof.
  induction 1 as [| x l Hx _ IH]; [reflexivity |].
  cbn [mapM_option]. now rewrite Hx, IH.
Qed.

Lemma strings_parse (l : list string) :
  mapM_option (safeParse ZString) (map JStr l) = Some (map JStr l).
Proof.
  apply mapM_option_id. apply Forall_forall. intros v Hin.
  apply in_map_iff in Hin. destruct Hin as [x [<- _]]. reflexivity.
Qed.

(** X13.  The object serialised for an error response conforms to
    [MCPErrorSchema] exactly when its code is a string; that is the case
    unless the thrown error carries a code property that is not a string. *)
Theorem error_payload_conforms (name : string) (arguments : JSValue)
        (st st' : ServerState) (payload : ErrorPayload) (details : JSValue) :
  callTool name arguments st = (IsError payload, st') ->
  safeParse_success (safeParse MCPErrorSchema (payload_object payload details))
  = is_string (code payload) /\
  exists error : Thrown,
    payload = normalize error /\
    is_string (code payload)
    = match thrown_code error with
      | Some c => is_string c
      | None => true
      end.
Proof.
  intros Hcall. split.
  - unfold MCPErrorSchema, payload_object.
    rewrite safeParse_object_success. cbn [forallb fst snd].
    rewrite !success_string.
    cbn [get assoc String.eqb Ascii.eqb Bool.eqb is_string andb].
    assert (Hdetails : safeParse_success (safeParse (ZOptional ZAny) details) = true)
      by (destruct details; reflexivity).
    assert (Hsuggestions :
              safeParse (ZOptional (ZArray ZString)) (JArr (map JStr (suggestions payload)))
              = Some (JArr (map JStr (suggestions payload)))).
    { change (safeParse (ZOptional (ZArray ZString))
                        (JArr (map JStr (suggestions payload))))
        with (option_map JArr
                (mapM_option (safeParse ZString) (map JStr (suggestions payload)))).
      now rewrite strings_parse. }
    rewrite Hdetails, Hsuggestions. cbn [safeParse safeParse_success andb].
    apply andb_true_r.
  - destruct (callTool_error _ _ _ Hcall) as [error ->]. exists error.
    split; [reflexivity |].
    destruct error as [[n m [c |] r] | str]; reflexivity.
Qed.

End Schemas.

Section UnknownKeys.

Lemma get_other_key (k k' : string) (v : JSValue) (props : list (string * JSValue)) :
  k' <> k -> get (JObj ((k, v) :: props)) k' = get (JObj props) k'.
Proof.
  intros Hne. cbn [get assoc]. apply String.eqb_neq in Hne. now rewrite Hne.
Qed.

(** X14.  The Zod validators ignore properties they do not declare: adding
    a property under any other name does not change the verdict. *)
Theorem validators_ignore_unknown_keys (k : string) (v : JSValue)
        (props : list (string * JSValue)) :
  (~ In k ["teamId"; "first"] ->
   EnhancedTypes.isValidListIssuesArgs (JObj ((k, v) :: props))
   = EnhancedTypes.isValidListIssuesArgs (JObj props)) /\
  (~ In k ["title"; "description"; "teamId"; "assigneeId"; "priority"] ->
   EnhancedTypes.isValidIssueCreateArgs (JObj ((k, v) :: props))
   = EnhancedTypes.isValidIssueCreateArgs (JObj props)).
Proof.
  unfold EnhancedTypes.isValidListIssuesArgs, EnhancedTypes.ListIssuesInputSchema,
    EnhancedTypes.isValidIssueCreateArgs, EnhancedTypes.CreateIssueInputSchema.
  rewrite !safeParse_object_success. cbn [forallb fst snd In].
  split; intros Hk;
    rewrite !get_other_key by (intros Heq; apply Hk; rewrite Heq; tauto);
    reflexivity.
Qed.

End UnknownKeys.

(** ** The execution context *)
Section ExecutionContext.

Lemma parsed_context (pipelineInput data : JSValue) :
  safeParse EnhancedTypes.PipelineSchema pipelineInput = Some data ->
  safeParse (ZOptional EnhancedTypes.MCPContextSchema) (get pipelineInput "context")
  = Some (context (as_Pipeline data)).
Proof.
  unfold EnhancedTypes.PipelineSchema. rewrite safeParse_object.
  destruct pipelineInput as [| | | | | | props |]; try discriminate.
  cbn [parse_keys].
  destruct (safeParse (ZArray _) (get (JObj props) "steps")) as [dsteps |];
    [| discriminate].
  destruct (safeParse (ZOptional EnhancedTypes.MCPContextSchema) (get (JObj props) "context"))
    as [dctx |]; [| discriminate].
  unfold as_Pipeline. cbn [context option_map].
  destruct dsteps, (assoc "steps" props), dctx, (assoc "context" props);
    intros [= <-]; reflexivity.
Qed.

(** X15.  The context of a run: when the pipeline supplies no context it
    is the generated request id and time stamp; when it supplies one, the
    supplied request id and time stamp replace the generated ones (the
    schema makes both mandatory, the request id a string). *)
Theorem effective_context_overlay (pipelineInput data : JSValue)
        (requestId : string) (now : Z) :
  safeParse EnhancedTypes.PipelineSchema pipelineInput = Some data ->
  (get pipelineInput "context" = JUndefined ->
   effective_context requestId now (context (as_Pipeline data))
   = JObj [("requestId", JStr requestId); ("timestamp", JNum (Finite now))]) /\
  (get pipelineInput "context" <> JUndefined ->
   get (effective_context requestId now (context (as_Pipeline data))) "requestId"
   = get (get pipelineInput "context") "requestId" /\
   get (effective_context requestId now (context (as_Pipeline data))) "timestamp"
   = get (get pipelineInput "context") "timestamp" /\
   is_string (get (get pipelineInput "context") "requestId") = true).
Proof.
  intros Hparse. apply parsed_context in Hparse.
  set (supplied := get pipelineInput "context") in *. clearbody supplied.
  set (parsed_ctx := context (as_Pipeline data)) in *. clearbody parsed_ctx.
  split.
  - intros ->. injection Hparse as <-. reflexivity.
  - intros Hsupplied.
    destruct supplied as [| | | | | | cprops |]; try discriminate Hparse;
      [now contradiction Hsupplied |].
    change (safeParse (ZOptional EnhancedTypes.MCPContextSchema) (JObj cprops))
      with (safeParse EnhancedTypes.MCPContextSchema (JObj cprops)) in Hparse.
    unfold EnhancedTypes.MCPContextSchema in Hparse.
    rewrite safeParse_object in Hparse. cbn [parse_keys get] in Hparse.
    cbn [get].
    destruct (assoc "requestId" cprops) as [[| | | | rid | | |] |];
      try discriminate Hparse;
      destruct (assoc "timestamp" cprops) as [[| | | [| inf | ts] | | | |] |];
      try discriminate Hparse;
      destruct (assoc "parentContext" cprops) as [[| | | | parent | | |] |];
      try discriminate Hparse;
      destruct (assoc "retryCount" cprops) as [[| | | [| rinf | retries] | | | |] |];
      try discriminate Hparse;
      destruct (assoc "timeout" cprops) as [[| | | [| tinf | timeout] | | | |] |];
      try discriminate Hparse;
      injection Hparse as <-; repeat split.
Qed.

End ExecutionContext.

(** ** Concrete runs of the further properties *)

Lemma report_of_unregistered_tool_witness :
  (getErrorRate
     (metrics (snd (@serve quietHost [("executePipeline", nested_pipeline)] quiet_server)))
     (Some "executePipeline") == 1)%Q.
Proof.
  apply (proj1 (proj2 (@report_of_unregistered_tool quietHost
                         [("executePipeline", nested_pipeline)] 0 "executePipeline"
                         ltac:(discriminate) eq_refl))).
  discriminate.
Defined.

Lemma unknown_step_aborts_witness :
  exists (ps' : @PipelineState quietHost) (m : MCPMetrics),
    for_steps executeTool [as_PipelineStep nested_step; as_PipelineStep list_step]
              [] JNull quiet_run
    = (Raise (ThrowError
                {| err_name := "Error";
                   err_message := "Unknown tool: executePipeline";
                   err_code := Some (JStr "PIPELINE_STEP_ERROR");
                   err_retryable := Some false |}),
       ps') /\
    journal ps'
    = [] ++ [EvDispatch "executePipeline" list_pipeline
               (Raise (ThrowError (new_Error "Unknown tool: executePipeline")))] /\
    metrics (server ps') = MetricsCollector.push m [] /\
    toolName m = "executePipeline" /\
    success m = false.
Proof.
  apply (@unknown_step_aborts quietHost (as_PipelineStep nested_step)
           [as_PipelineStep list_step] [] JNull quiet_run list_pipeline 0 eq_refl).
  exists 0. split; [reflexivity | split; reflexivity].
Defined.

Lemma client_receives_caller_params_witness :
  fst (@executeTool quietHost "listIssues" (JObj []) quiet_server)
  = fst (@client_issues quietHost (JObj []) 1).
Proof.
  apply (proj1 (@client_receives_caller_params quietHost (JObj []) quiet_server)).
  reflexivity.
Defined.

Lemma context_is_ignored_witness :
  @executePipeline quietHost executeTool list_pipeline quiet_run
  = @executePipeline quietHost executeTool traced_pipeline quiet_run.
Proof.
  apply (@context_is_ignored quietHost executeTool list_pipeline traced_pipeline
           (parsed list_pipeline) (parsed traced_pipeline) quiet_run);
    reflexivity.
Defined.

Lemma steps_after_failure_are_ignored_witness :
  @for_steps quietHost executeTool
     ([as_PipelineStep followup_step] ++ [as_PipelineStep list_step]) [] JNull quiet_run
  = @for_steps quietHost executeTool [as_PipelineStep followup_step] [] JNull quiet_run.
Proof.
  apply (@steps_after_failure_are_ignored quietHost executeTool
           [as_PipelineStep followup_step] [as_PipelineStep list_step] [] JNull quiet_run
           (ThrowError
              (step_error (TypeError "Cannot read properties of null (reading 'nodes')")))).
  reflexivity.
Defined.

Lemma pipeline_runs_compose_witness :
  exists news : list JSValue,
    [no_issues] = [] ++ news /\
    forall more : list PipelineStep,
      @for_steps quietHost executeTool ([as_PipelineStep list_step] ++ more) [] JNull quiet_run
      = for_steps executeTool more [no_issues] (last news JNull)
                  (snd (@for_steps quietHost executeTool [as_PipelineStep list_step]
                          [] JNull quiet_run)).
Proof.
  apply (@pipeline_runs_compose quietHost executeTool [as_PipelineStep list_step]
           [] JNull quiet_run).
  reflexivity.
Defined.

Lemma error_payload_conforms_witness :
  safeParse_success
    (safeParse MCPErrorSchema (payload_object (normalize rate_limit_error) JNull))
  = is_string (code (normalize rate_limit_error)).
Proof.
  apply (proj1 (@error_payload_conforms limitedHost "listIssues" (JObj []) limited_server
                  (snd (@callTool limitedHost "listIssues" (JObj []) limited_server))
                  (normalize rate_limit_error) JNull eq_refl)).
Defined.

Lemma validators_ignore_unknown_keys_witness :
  EnhancedTypes.isValidIssueCreateArgs (JObj (("labels", JArr []) :: issue_args))
  = EnhancedTypes.isValidIssueCreateArgs (JObj issue_args).
Proof.
  apply (proj2 (validators_ignore_unknown_keys "labels" (JArr []) issue_args)).
  cbn [In]. intros [Hk | [Hk | [Hk | [Hk | [Hk | []]]]]]; discriminate Hk.
Defined.

Lemma effective_context_overlay_witness :
  get (effective_context "7d9f1c2e-5b1a-4c3d-9e8f-0a1b2c3d4e5f" 0
         (context (as_Pipeline (parsed traced_pipeline)))) "requestId"
  = get (get traced_pipeline "context") "requestId".
Proof.
  apply (proj2 (@effective_context_overlay traced_pipeline (parsed traced_pipeline)
                  "7d9f1c2e-5b1a-4c3d-9e8f-0a1b2c3d4e5f" 0 eq_refl)).
  discriminate.
Defined.
